(** * Long-message splitting and delivery of the WhatsApp transcription bot

    A shallow embedding of [sendSplitMessage] (server.js, lines 237-298),
    the function that relays a reply to a WhatsApp recipient and splits it
    into numbered parts when it exceeds the 4096-character limit of one
    message, together with the two helpers it awaits: [sendWhatsAppMessage]
    (lines 198-222, which throws again the error of a failed request) and
    [delay] (lines 225-227).

    - A JavaScript string is the list of its UTF-16 code units; [length],
      [substring] and [trim] are those of String.prototype.
    - An [async] function is a computation over the network: it is given the
      number of POST requests issued so far, and yields the events it causes
      (requests and timer waits, in order), the new request count and how it
      completes (a return, or a throw that rejects the promise).
    - The Graph API is a black box [net]: the outcome of the k-th POST, given
      the recipient and the body.  Console output is not modelled.
    - The specification calls the function [deliver]; here [deliver] is one
      call of [sendSplitMessage] on a network that has seen no request yet.

    Not modelled: the limit of 2^32 - 1 elements of an array (a plan of that
    many parts needs a text of more than 10^13 characters). *)

From Stdlib Require Import Ascii String.
From Stdlib Require Import List Arith PeanoNat NArith ZArith Bool Lia.
Import ListNotations.

Local Open Scope nat_scope.
Local Open Scope list_scope.

(** ** JavaScript strings *)

Module JS.

(** One UTF-16 code unit. *)
Definition codeUnit : Type := N.

Definition jsstring : Type := list codeUnit.

(** A string literal of the source (all literals used here are ASCII). *)
Definition lit (s : string) : jsstring :=
  map N_of_ascii (list_ascii_of_string s).

(** ECMA-262 6.1.4: a String value has at most 2^53 - 1 elements. *)
Definition MAX_STRING_LENGTH : N := 9007199254740991.

Definition representable (s : jsstring) : Prop :=
  (N.of_nat (length s) <= MAX_STRING_LENGTH)%N.

(** [s.substring(indexStart, indexEnd)]: both indices are clamped to the
    length of [s], and swapped when the first exceeds the second. *)
Definition substring (s : jsstring) (indexStart indexEnd : nat) : jsstring :=
  let a := Nat.min indexStart (length s) in
  let b := Nat.min indexEnd (length s) in
  firstn (Nat.max a b - Nat.min a b) (skipn (Nat.min a b) s).

(** WhiteSpace and LineTerminator code points, the ones [trim] strips. *)
Definition isWhiteSpace (c : codeUnit) : bool :=
  ((9 <=? c) && (c <=? 13) || (c =? 32) || (c =? 160) || (c =? 5760)
   || (8192 <=? c) && (c <=? 8202) || (c =? 8232) || (c =? 8233)
   || (c =? 8239) || (c =? 8287) || (c =? 12288) || (c =? 65279))%N.

Fixpoint trimStart (s : jsstring) : jsstring :=
  match s with
  | c :: s' => if isWhiteSpace c then trimStart s' else s
  | [] => []
  end.

Fixpoint trimEnd (s : jsstring) : jsstring :=
  match s with
  | c :: s' =>
      match trimEnd s' with
      | [] => if isWhiteSpace c then [] else [c]
      | t => c :: t
      end
  | [] => []
  end.

Definition trim (s : jsstring) : jsstring :=
  trimEnd (trimStart s).

(** Strict equality of two strings. *)
Fixpoint streq (s t : jsstring) : bool :=
  match s, t with
  | [], [] => true
  | c :: s', d :: t' => (c =? d)%N && streq s' t'
  | _, _ => false
  end.

(** Number-to-string conversion of a non-negative integer, as a template
    literal performs it: the decimal digits, most significant first (the
    form JavaScript uses below 10^21). A number has no more decimal digits
    than binary ones, which bounds the loop. *)
Fixpoint digits (fuel : nat) (n : N) (acc : jsstring) : jsstring :=
  match fuel with
  | O => acc
  | S fuel' =>
      let acc' := (48 + n mod 10)%N :: acc in
      if (n / 10 =? 0)%N then acc' else digits fuel' (n / 10)%N acc'
  end.

Definition decimal (n : nat) : jsstring :=
  let m := N.of_nat n in digits (S (N.to_nat (N.log2 m))) m [].

(** The values [longText] can be bound to. Numbers are the integral ones and
    NaN; objects (arrays and functions included) carry no content. *)
Inductive value : Type :=
| VUndefined
| VNull
| VBoolean (b : bool)
| VNumber (z : Z)
| VNaN
| VString (s : jsstring)
| VObject.

(** ToBoolean. *)
Definition truthy (v : value) : bool :=
  match v with
  | VUndefined | VNull | VNaN => false
  | VBoolean b => b
  | VNumber z => negb (z =? 0)%Z
  | VString s => negb (streq s [])
  | VObject => true
  end.

(** [typeof v === 'string'] *)
Definition isString (v : value) : bool :=
  match v with
  | VString _ => true
  | _ => false
  end.

End JS.

Import JS.

(** ** Asynchronous computations over the network *)

Inductive event : Type :=
| Send (to payload : jsstring) (accepted : bool)   (* one POST to /messages *)
| Delay (ms : nat).                                (* one awaited timer *)

Inductive completion (A : Type) : Type :=
| Returned (a : A)
| Thrown.

Arguments Returned {A} a.
Arguments Thrown {A}.

(** Outcome of the k-th POST (counted from 0), given recipient and body. *)
Definition network : Type := nat -> jsstring -> jsstring -> bool.

Definition async (A : Type) : Type :=
  nat -> list event * nat * completion A.

Definition ret {A} (a : A) : async A :=
  fun k => ([], k, Returned a).

Definition throw {A} : async A :=
  fun k => ([], k, Thrown).

Definition bind {A B} (m : async A) (f : A -> async B) : async B :=
  fun k =>
    let '(t1, k1, r1) := m k in
    match r1 with
    | Returned a => let '(t2, k2, r2) := f a k1 in (t1 ++ t2, k2, r2)
    | Thrown => (t1, k1, Thrown)
    end.

(** [try { m } catch (error) { handler }] *)
Definition tryCatch {A} (m : async A) (handler : async A) : async A :=
  fun k =>
    let '(t1, k1, r1) := m k in
    match r1 with
    | Returned a => (t1, k1, Returned a)
    | Thrown => let '(t2, k2, r2) := handler k1 in (t1 ++ t2, k2, r2)
    end.

Notation "x <- m ;; f" := (bind m (fun x => f))
  (at level 61, m at next level, right associativity).
Notation "m ;; f" := (bind m (fun _ => f))
  (at level 61, right associativity).

Definition events {A} (r : list event * nat * completion A) : list event :=
  fst (fst r).

Definition outcome {A} (r : list event * nat * completion A) : completion A :=
  snd r.

(** The bodies handed to the send primitive, in order. *)
Fixpoint sentPayloads (t : list event) : list jsstring :=
  match t with
  | Send _ p _ :: t' => p :: sentPayloads t'
  | Delay _ :: t' => sentPayloads t'
  | [] => []
  end.

(** ** server.js *)

Section Server.

Variable net : network.

(** [sendWhatsAppMessage(to, text)]: one POST; an error is logged and thrown
    again. *)
Definition sendWhatsAppMessage (to text : jsstring) : async unit :=
  fun k =>
    let accepted := net k to text in
    ([Send to text accepted], S k, if accepted then Returned tt else Thrown).

(** [delay(ms)]: a promise resolved by a timer. *)
Definition delay (ms : nat) : async unit :=
  fun k => ([Delay ms], k, Returned tt).

Definition MAX_LENGTH : nat := 4096.
Definition PREFIX_RESERVATION : nat := 20.
Definition CHUNK_SIZE : nat := MAX_LENGTH - PREFIX_RESERVATION.

(** The splitting loop,
    [for (let i = 0; i < longText.length; i += CHUNK_SIZE)
       chunks.push(longText.substring(i, i + CHUNK_SIZE))].
    Every iteration advances [i], so [length longText] iterations suffice. *)
Fixpoint splitLoop (fuel : nat) (longText : jsstring) (i : nat)
    (chunks : list jsstring) : list jsstring :=
  match fuel with
  | O => chunks
  | S fuel' =>
      if i <? length longText
      then splitLoop fuel' longText (i + CHUNK_SIZE)
             (chunks ++ [substring longText i (i + CHUNK_SIZE)])
      else chunks
  end.

Definition splitIntoChunks (longText : jsstring) : list jsstring :=
  splitLoop (length longText) longText 0 [].

(** [`(${i + 1}/${chunks.length}) ${chunk}`] *)
Definition messagePart (total i : nat) (chunk : jsstring) : jsstring :=
  lit "(" ++ decimal (i + 1) ++ lit "/" ++ decimal total ++ lit ") " ++ chunk.

Definition NOTICE : jsstring :=
  lit "Sorry, I encountered an issue while sending your multi-part message and couldn't send all of it.".

(** How one iteration of the sending loop ends. *)
Inductive loopStep : Type :=
| Continue   (* fall through, or [continue] *)
| Return.    (* [return] out of sendSplitMessage *)

(** The sending loop, from index [i] on; [rest] holds [chunks[i]],
    [chunks[i+1]], ... and [total] is [chunks.length]. *)
Fixpoint sendParts (to : jsstring) (ms total i : nat)
    (rest : list jsstring) : async unit :=
  match rest with
  | [] => ret tt
  | chunk :: rest' =>
      let part := messagePart total i chunk in
      if MAX_LENGTH <? length part then
        sendWhatsAppMessage to
          (substring part 0 (MAX_LENGTH - 3) ++ lit "...") ;;
        sendParts to ms total (i + 1) rest'
      else
        step <-
          tryCatch
            (sendWhatsAppMessage to part ;;
             (if i <? total - 1 then delay ms else ret tt) ;;
             ret Continue)
            ((if i =? 0
              then tryCatch (sendWhatsAppMessage to NOTICE) (ret tt)
              else ret tt) ;;
             ret Return) ;;
        match step with
        | Continue => sendParts to ms total (i + 1) rest'
        | Return => ret tt
        end
  end.

(** The guard [!longText || typeof longText !== 'string' ||
    longText.trim() === ""], evaluated left to right; calling [trim] on a
    value that has no such method throws a TypeError. *)
Definition emptyOrInvalid (longText : value) : async bool :=
  if negb (truthy longText) then ret true
  else if negb (isString longText) then ret true
  else match longText with
       | VString s => ret (streq (trim s) [])
       | _ => throw
       end.

(** A parameter with a default value; [None] is an omitted argument. *)
Definition orDefault (dflt : nat) (arg : option nat) : nat :=
  match arg with
  | Some d => d
  | None => dflt
  end.

(** [sendSplitMessage(to, longText, delayBetweenMessages = 1500)] *)
Definition sendSplitMessage (to : jsstring) (longText : value)
    (delayBetweenMessages : option nat) : async unit :=
  let ms := orDefault 1500 delayBetweenMessages in
  invalid <- emptyOrInvalid longText ;;
  if invalid then ret tt
  else
    match longText with
    | VString s =>
        if length s <=? MAX_LENGTH then sendWhatsAppMessage to s
        else
          let chunks := splitIntoChunks s in
          sendParts to ms (length chunks) 0 chunks
    | _ => throw
    end.

(** One call of [sendSplitMessage] on a network that has seen no request. *)
Definition deliver (to : jsstring) (longText : value)
    (delayBetweenMessages : option nat) : list event * nat * completion unit :=
  sendSplitMessage to longText delayBetweenMessages 0.

End Server.

(** ** Vocabulary of the properties *)

(** The number a string of decimal digits denotes, read after [acc]. *)
Fixpoint numberOf (s : jsstring) (acc : N) : N :=
  match s with
  | c :: s' => numberOf s' (10 * acc + (c - 48))%N
  | [] => acc
  end.

(** ceil(a / b) for a positive [b]. *)
Definition ceilDiv (a b : nat) : nat := (a + (b - 1)) / b.

(** The body the splitting loop pushes in its iteration number [j]. *)
Definition slice (longText : jsstring) (i j : nat) : jsstring :=
  substring longText (i + j * CHUNK_SIZE) (i + j * CHUNK_SIZE + CHUNK_SIZE).

(** The rendered part is over the limit. *)
Definition oversized (total i : nat) (chunk : jsstring) : bool :=
  MAX_LENGTH <? length (messagePart total i chunk).

(** What the loop hands to [sendWhatsAppMessage] for [chunks[i]]. *)
Definition partPayload (total i : nat) (chunk : jsstring) : jsstring :=
  if oversized total i chunk
  then substring (messagePart total i chunk) 0 (MAX_LENGTH - 3) ++ lit "..."
  else messagePart total i chunk.

(** The events of iterations that all end well: each body is sent once, in
    order, and a part that went out as rendered is followed by the pause
    unless it is the last one. *)
Fixpoint pacedSends (to : jsstring) (ms total i : nat)
    (bodies : list jsstring) : list event :=
  match bodies with
  | [] => []
  | chunk :: bodies' =>
      Send to (partPayload total i chunk) true
      :: (if negb (oversized total i chunk) && (i <? total - 1)
          then [Delay ms] else [])
      ++ pacedSends to ms total (i + 1) bodies'
  end.

(** The events of the iteration whose request is refused, [k] requests
    having been issued before it. *)
Definition abortEvents (net : network) (to : jsstring) (total i : nat)
    (chunk : jsstring) (k : nat) : list event :=
  Send to (partPayload total i chunk) false
  :: (if negb (oversized total i chunk) && (i =? 0)
      then [Send to NOTICE (net (S k) to NOTICE)] else []).

(** The size limit of one WhatsApp message, on the events of a run. *)
Definition withinLimit (e : event) : Prop :=
  match e with
  | Send _ payload _ => length payload <= MAX_LENGTH
  | Delay _ => True
  end.

(** The body handed to the send primitive for part [j] (counted from 0) of
    the plan of [text], and whether that part is rendered over the limit. *)
Definition payloadAt (text : jsstring) (j : nat) : jsstring :=
  partPayload (length (splitIntoChunks text)) j
    (nth j (splitIntoChunks text) []).

Definition oversizedAt (text : jsstring) (j : nat) : bool :=
  oversized (length (splitIntoChunks text)) j
    (nth j (splitIntoChunks text) []).

(** After the specification's data model: the rendered length of the
    ["(i/n) "] prefix (i counted from 1), and the size invariant of a
    chunk, [body.length + prefixLength(index, total) <= MAX_MESSAGE_LENGTH],
    read over the bodies of a whole plan. *)
Definition prefixLength (index total : nat) : nat :=
  length (lit "(" ++ decimal index ++ lit "/" ++ decimal total ++ lit ") ").

Definition sizeInvariant (bodies : list jsstring) : Prop :=
  forall j, j < length bodies ->
    length (nth j bodies []) + prefixLength (j + 1) (length bodies)
    <= MAX_LENGTH.

(** ** Scenarios *)

(** [n] characters ['x']. *)
Definition xs (n : nat) : jsstring := repeat 120%N n.

(** A network that accepts every request, and one that refuses them all. *)
Definition alwaysAccept : network := fun _ _ _ => true.
Definition alwaysReject : network := fun _ _ _ => false.

(** Second request refused, as when part 2 of 3 fails. *)
Definition secondRefused : network := fun k _ _ => negb (k =? 1).


(** ** The webhook: JSON payloads, the two handlers, message processing

    The rest of server.js (lines 59-195). A request body or a query value is
    a JSON value; [None] stands for [undefined]. A number is kept as what
    this program can observe of it: whether it is zero, and the string it
    converts to. An object is the list of its own properties, a key being
    looked up at its first occurrence. *)

Local Unset Elimination Schemes.

Inductive json : Type :=
| JNull
| JBool (b : bool)
| JNum (zero : bool) (text : jsstring)
| JStr (s : jsstring)
| JArr (items : list json)
| JObj (fields : list (jsstring * json)).

Local Set Elimination Schemes.

(** ToBoolean. *)
Definition truthyJ (v : option json) : bool :=
  match v with
  | None | Some JNull => false
  | Some (JBool b) => b
  | Some (JNum zero _) => negb zero
  | Some (JStr s) => negb (streq s [])
  | Some (JArr _) | Some (JObj _) => true
  end.

(** [v === s] for a string [s]. *)
Definition isStr (v : option json) (s : jsstring) : bool :=
  match v with
  | Some (JStr t) => streq t s
  | _ => false
  end.

(** [v === s] for a variable of the environment, unset when [None]. *)
Definition isEnv (v : option json) (s : option jsstring) : bool :=
  match v, s with
  | Some (JStr t), Some u => streq t u
  | None, None => true
  | _, _ => false
  end.

Fixpoint lookup (key : jsstring) (fields : list (jsstring * json))
    : option json :=
  match fields with
  | (k, v) :: fields' => if streq k key then Some v else lookup key fields'
  | [] => None
  end.

(** Sequencing of synchronous code that may throw. *)
Definition andThen {A B} (c : completion A) (f : A -> completion B)
    : completion B :=
  match c with
  | Returned a => f a
  | Thrown => Thrown
  end.

Notation "x <~ c ;; f" := (andThen c (fun x => f))
  (at level 61, c at next level, right associativity).

(** ToString, as a template literal applies it. An array is its elements
    joined by commas, null elements giving the empty string. An object
    converts through [Object.prototype.toString], unless it has a property
    [toString] of its own: a JSON value is no function, so that neither it
    nor [valueOf] yields a primitive, and the conversion is a TypeError. *)
Fixpoint toStringJ (v : json) : completion jsstring :=
  match v with
  | JNull => Returned (lit "null")
  | JBool true => Returned (lit "true")
  | JBool false => Returned (lit "false")
  | JNum _ text => Returned text
  | JStr s => Returned s
  | JArr items =>
      (fix join (l : list json) : completion jsstring :=
         match l with
         | [] => Returned []
         | x :: l' =>
             s <~ (match x with JNull => Returned [] | _ => toStringJ x end) ;;
             match l' with
             | [] => Returned s
             | _ => r <~ join l' ;; Returned (s ++ lit "," ++ r)
             end
         end) items
  | JObj fields =>
      match lookup (lit "toString") fields with
      | Some _ => Thrown
      | None => Returned (lit "[object Object]")
      end
  end.

Definition toString (v : option json) : completion jsstring :=
  match v with
  | None => Returned (lit "undefined")
  | Some j => toStringJ j
  end.

(** [v.key], for the keys this program reads (none is [length], an index or
    a property of a prototype): a TypeError on [undefined] and [null]. *)
Definition prop (v : option json) (key : string) : completion (option json) :=
  match v with
  | None | Some JNull => Thrown
  | Some (JObj fields) => Returned (lookup (lit key) fields)
  | Some _ => Returned None
  end.

(** [v[0]] *)
Definition index0 (v : option json) : completion (option json) :=
  match v with
  | None | Some JNull => Thrown
  | Some (JArr items) => Returned (hd_error items)
  | Some (JStr s) =>
      Returned (match s with c :: _ => Some (JStr [c]) | [] => None end)
  | Some (JObj fields) => Returned (lookup (lit "0") fields)
  | Some _ => Returned None
  end.

(** A synchronous step inside an async function. *)
Definition lift {A} (c : completion A) : async A :=
  fun k => ([], k, c).

(** What a handler answers: [res.sendStatus(code)], or
    [res.status(code).send(body)]. *)
Inductive httpReply : Type :=
| sendStatus (code : nat)
| send (code : nat) (body : option json).

(** [app.get('/webhook', ...)], lines 60-80, on the three query values and
    the configured token. The refusal logs the mode and the token through a
    template literal (line 73) before it answers. *)
Definition webhookGet (VERIFY_TOKEN : option jsstring)
    (mode token challenge : option json) : completion httpReply :=
  if truthyJ mode && truthyJ token then
    if isStr mode (lit "subscribe") && isEnv token VERIFY_TOKEN
    then Returned (send 200 challenge)
    else
      _ <~ toString mode ;;
      _ <~ toString token ;;
      Returned (sendStatus 403)
  else Returned (sendStatus 400).

(** The services the audio path awaits, as black boxes: the media lookup
    ([response.data] of the first GET, given its URL), the download (the
    buffer made of the second GET's data, given the media URL), and the
    Gemini call (given the buffer and the MIME type). Each may reject. What
    Gemini resolves to is an object that [JSON.stringify] renders. *)
Inductive geminiResult : Type :=
| Unexpected                           (* no [response], or no [text] function *)
| Response (text : completion jsstring).   (* what [response.text()] does *)

Record services : Type := {
  getMedia : jsstring -> completion (option json);
  getAudio : option json -> completion (list N);
  generateContent : list N -> option json -> completion geminiResult
}.

Definition NO_MEDIA_URL : jsstring :=
  lit "Sorry, I couldn't retrieve your audio file details at the moment.".
Definition UNEXPECTED_RESPONSE : jsstring :=
  lit "Sorry, I received an unexpected response from the transcription service.".
Definition SILENT_AUDIO : jsstring :=
  lit "The audio seems to be silent or could not be transcribed into meaningful text.".
Definition INTERNAL_ERROR : jsstring :=
  lit "Sorry, I encountered an internal error while processing your message. Please try again later.".

(** [messagePayload.entry[0].changes[0].value.messages[0]] *)
Definition messageOf (messagePayload : json) : completion (option json) :=
  entry <~ prop (Some messagePayload) "entry" ;;
  entry0 <~ index0 entry ;;
  changes <~ prop entry0 "changes" ;;
  changes0 <~ index0 changes ;;
  value <~ prop changes0 "value" ;;
  messages <~ prop value "messages" ;;
  index0 messages.

Section Webhook.

Variable net : network.
Variable svc : services.

(** The name under which the network knows the value passed as [to]. *)
Variable address : option json -> jsstring.

(** [processWhatsAppMessage(messagePayload)], lines 83-163. The logs that
    render a value of the message through a template literal are kept, as
    the conversion may throw (lines 90, 146, 149 and 155). An error thrown
    in the try block is an Error object, so that reading its [response] and
    [message] does not throw again. *)
Definition processWhatsAppMessage (messagePayload : json) : async unit :=
  message <- lift (messageOf messagePayload) ;;
  from <- lift (prop message "from") ;;
  let reply (text : jsstring) : async unit :=
    sendSplitMessage net (address from) (VString text) None in
  tryCatch
    (type <- lift (prop message "type") ;;
     if isStr type (lit "audio") then
       audio <- lift (prop message "audio") ;;
       audioId <- lift (prop audio "id") ;;
       id <- lift (toString audioId) ;;
       _ <- lift (toString from) ;;
       data <- lift (getMedia svc
                 (lit "https://graph.facebook.com/v19.0/" ++ id)) ;;
       url <- (if truthyJ data then lift (prop data "url") else ret None) ;;
       if negb (truthyJ data) || negb (truthyJ url) then reply NO_MEDIA_URL
       else
         audioBuffer <- lift (getAudio svc url) ;;
         mime <- lift (prop audio "mime_type") ;;
         let mimeType :=
           if truthyJ mime then mime
           else Some (JStr (lit "audio/ogg; codecs=opus")) in
         result <- lift (generateContent svc audioBuffer mimeType) ;;
         match result with
         | Unexpected => reply UNEXPECTED_RESPONSE
         | Response text =>
             transcribedText <- lift text ;;
             if streq transcribedText [] || streq (trim transcribedText) []
             then reply SILENT_AUDIO
             else reply (lit "Transcription: " ++ transcribedText)
         end
     else if isStr type (lit "text") then
       _ <- lift (toString from) ;;
       text <- lift (prop message "text") ;;
       body <- lift (prop text "body") ;;
       said <- lift (toString body) ;;
       reply (lit "You said: " ++ said)
     else
       _ <- lift (toString type) ;;
       _ <- lift (toString from) ;;
       ret tt)
    (_ <- lift (toString from) ;;
     tryCatch (reply INTERNAL_ERROR) (ret tt)).

(** The test of the POST handler, lines 171-175, operand by operand, on
    [req.body]: what the JSON parser made of the request, [undefined] when
    it parsed nothing. *)
Definition isMessageEvent (body : option json) : completion bool :=
  object <~ prop body "object" ;;
  if negb (isStr object (lit "whatsapp_business_account")) then Returned false
  else
    entry <~ prop body "entry" ;;
    if negb (truthyJ entry) then Returned false else
    entry0 <~ index0 entry ;;
    if negb (truthyJ entry0) then Returned false else
    changes <~ prop entry0 "changes" ;;
    if negb (truthyJ changes) then Returned false else
    changes0 <~ index0 changes ;;
    if negb (truthyJ changes0) then Returned false else
    value <~ prop changes0 "value" ;;
    if negb (truthyJ value) then Returned false else
    messages <~ prop value "messages" ;;
    if negb (truthyJ messages) then Returned false else
    messages0 <~ index0 messages ;;
    Returned (truthyJ messages0).

(** [app.post('/webhook', ...)], lines 166-195: the status answered at once,
    and the run of the processing it starts, if any; a rejection of that
    run is caught and logged. When the test throws, the handler throws
    before it answers. ([processWhatsAppMessage(undefined)] would reject at
    line 84; the test lets no such body through.) *)
Definition webhookPost (body : option json)
    : completion (httpReply * option (list event * nat * completion unit)) :=
  valid <~ isMessageEvent body ;;
  if valid
  then
    Returned (sendStatus 200,
              Some (match body with
                    | Some messagePayload =>
                        processWhatsAppMessage messagePayload 0
                    | None => ([], 0, Thrown)
                    end))
  else Returned (sendStatus 404, None).

End Webhook.

(** ** The earlier revision (server.js, lines 346-363 and 429-505)

    Its [sendWhatsAppMessage] logs a failed request and does not throw it
    again; its [sendSplitMessage] has no guard and no truncation. Every call
    passes a string. *)

Module Rev2.

(** [app.get('/webhook', ...)], lines 346-363: no log of the mode or the
    token. *)
Definition webhookGet (VERIFY_TOKEN : option jsstring)
    (mode token challenge : option json) : httpReply :=
  if truthyJ mode && truthyJ token then
    if isStr mode (lit "subscribe") && isEnv token VERIFY_TOKEN
    then send 200 challenge
    else sendStatus 403
  else sendStatus 400.

Section Sender.

Variable net : network.

Definition sendWhatsAppMessage (to text : jsstring) : async unit :=
  fun k => ([Send to text (net k to text)], S k, Returned tt).

Fixpoint sendParts (to : jsstring) (ms total i : nat)
    (rest : list jsstring) : async unit :=
  match rest with
  | [] => ret tt
  | chunk :: rest' =>
      step <-
        tryCatch
          (let part := messagePart total i chunk in
           sendWhatsAppMessage to part ;;
           (if i <? total - 1 then delay ms else ret tt) ;;
           ret Continue)
          (ret Return) ;;
      match step with
      | Continue => sendParts to ms total (i + 1) rest'
      | Return => ret tt
      end
  end.

Definition sendSplitMessage (to longText : jsstring)
    (delayBetweenMessages : option nat) : async unit :=
  let ms := orDefault 1500 delayBetweenMessages in
  if length longText <=? MAX_LENGTH then sendWhatsAppMessage to longText
  else
    let chunks := splitIntoChunks longText in
    sendParts to ms (length chunks) 0 chunks.

End Sender.

End Rev2.

(** The pauses awaited in a run, in order. *)
Fixpoint pauses (t : list event) : list nat :=
  match t with
  | Delay ms :: t' => ms :: pauses t'
  | Send _ _ _ :: t' => pauses t'
  | [] => []
  end.

(** A webhook body carrying one message. *)
Definition eventOf (message : json) : json :=
  JObj [(lit "object", JStr (lit "whatsapp_business_account"));
        (lit "entry",
         JArr [JObj [(lit "changes",
                      JArr [JObj [(lit "value",
                                   JObj [(lit "messages",
                                          JArr [message])])]])]])].

Definition textMessage (from text : jsstring) : json :=
  JObj [(lit "from", JStr from); (lit "type", JStr (lit "text"));
        (lit "text", JObj [(lit "body", JStr text)])].

Definition audioMessage (from id : jsstring) : json :=
  JObj [(lit "from", JStr from); (lit "type", JStr (lit "audio"));
        (lit "audio", JObj [(lit "id", JStr id)])].

(** ToString returns for [v]. *)
Definition printable (v : option json) : bool :=
  match toString v with
  | Returned _ => true
  | Thrown => false
  end.

(** The audio of [message] has an identifier that renders as [id]; the
    media lookup is made at the URL ending in [id]. *)
Definition audioOf (message audio : option json) (id : jsstring) : Prop :=
  prop message "audio" = Returned audio
  /\ exists audioId : option json,
       prop audio "id" = Returned audioId /\ toString audioId = Returned id.

Definition mediaUrl (id : jsstring) : jsstring :=
  lit "https://graph.facebook.com/v19.0/" ++ id.

(** The MIME type passed to Gemini. *)
Definition mimeTypeOf (mime : option json) : option json :=
  if truthyJ mime then mime else Some (JStr (lit "audio/ogg; codecs=opus")).

(** The audio of [message] is fetched and Gemini answers [result]. *)
Definition answers (svc : services) (message : option json)
    (result : geminiResult) : Prop :=
  exists (audio data url mime : option json) (id : jsstring)
         (audioBuffer : list N),
    audioOf message audio id
    /\ getMedia svc (mediaUrl id) = Returned data
    /\ truthyJ data = true
    /\ prop data "url" = Returned url
    /\ truthyJ url = true
    /\ getAudio svc url = Returned audioBuffer
    /\ prop audio "mime_type" = Returned mime
    /\ generateContent svc audioBuffer (mimeTypeOf mime) = Returned result.

(** The audio path goes through for [message], with transcription [t]. *)
Definition transcribes (svc : services) (message : option json)
    (t : jsstring) : Prop :=
  answers svc message (Response (Returned t)).

(** The audio path breaks for [message]: one of the three services rejects,
    or [response.text()] throws. *)
Definition rejects (svc : services) (message : option json) : Prop :=
  answers svc message (Response Thrown)
  \/ exists (audio : option json) (id : jsstring),
       audioOf message audio id
       /\ (getMedia svc (mediaUrl id) = Thrown
           \/ exists data url : option json,
                getMedia svc (mediaUrl id) = Returned data
                /\ truthyJ data = true
                /\ prop data "url" = Returned url
                /\ truthyJ url = true
                /\ (getAudio svc url = Thrown
                    \/ exists (audioBuffer : list N) (mime : option json),
                         getAudio svc url = Returned audioBuffer
                         /\ prop audio "mime_type" = Returned mime
                         /\ generateContent svc audioBuffer (mimeTypeOf mime)
                            = Thrown)).

(** The media lookup answers for [message], but without a usable [url]. *)
Definition mediaUrlMissing (svc : services) (message : option json) : Prop :=
  exists (audio data : option json) (id : jsstring),
    audioOf message audio id
    /\ getMedia svc (mediaUrl id) = Returned data
    /\ (truthyJ data = false
        \/ exists url : option json,
             prop data "url" = Returned url /\ truthyJ url = false).

(** The audio of [message] is fetched, and Gemini answers with a result
    that has no [response.text] function. *)
Definition responseUnexpected (svc : services) (message : option json)
    : Prop :=
  answers svc message Unexpected.

(** Services whose media lookup answers with an empty object, and services
    whose Gemini result is not of the expected shape. *)
Definition withoutUrl : services :=
  {| getMedia := fun _ => Returned (Some (JObj []));
     getAudio := fun _ => Thrown;
     generateContent := fun _ _ => Thrown |}.

Definition misshapen : services :=
  {| getMedia := fun _ =>
       Returned (Some (JObj [(lit "url",
                              JStr (lit "https://lookaside.example/m1"))]));
     getAudio := fun _ => Returned [79; 103; 103; 83]%N;
     generateContent := fun _ _ => Returned Unexpected |}.

(** Services that transcribe every audio to [t], and services that are
    down. *)
Definition transcribing (t : jsstring) : services :=
  {| getMedia := fun _ => Returned (Some (JObj [(lit "url", JStr (lit "https://lookaside.example/m1"))]));
     getAudio := fun _ => Returned [79; 103; 103; 83]%N;
     generateContent := fun _ _ => Returned (Response (Returned t)) |}.

Definition unavailable : services :=
  {| getMedia := fun _ => Thrown;
     getAudio := fun _ => Thrown;
     generateContent := fun _ _ => Thrown |}.

(** Senders are known to the network by their number. *)
Definition byNumber (v : option json) : jsstring :=
  match toString v with
  | Returned s => s
  | Thrown => []
  end.

(** A message whose sender has a property [toString] of its own. *)
Definition unprintableSender : json :=
  JObj [(lit "from", JObj [(lit "toString", JStr (lit "15550100"))]);
        (lit "type", JStr (lit "text"));
        (lit "text", JObj [(lit "body", JStr (lit "hello"))])].

(** ** Strings: substring, trim, decimal rendering *)

Lemma substring_from (s : jsstring) (a b : nat) :
  a <= b -> substring s a b = firstn (b - a) (skipn a s).
Proof.
  intros Hab. unfold substring. cbv zeta.
  destruct (Nat.le_gt_cases a (length s)) as [Ha | Ha].
  - rewrite (Nat.min_l a (length s)) by exact Ha.
    destruct (Nat.le_gt_cases b (length s)) as [Hb | Hb].
    + rewrite (Nat.min_l b (length s)) by exact Hb.
      rewrite Nat.max_r, Nat.min_l by exact Hab. reflexivity.
    + rewrite (Nat.min_r b (length s)) by lia.
      rewrite Nat.max_r, Nat.min_l by exact Ha.
      rewrite !firstn_all2; trivial; rewrite length_skipn; lia.
  - rewrite !(Nat.min_r _ (length s)) by lia.
    rewrite Nat.max_id, Nat.sub_diag.
    rewrite !skipn_all2 by lia. now rewrite !firstn_nil.
Qed.

Lemma substring_length (s : jsstring) (a b : nat) :
  a <= b -> length (substring s a b) = Nat.min (b - a) (length s - a).
Proof.
  intros Hab. rewrite substring_from by exact Hab.
  now rewrite length_firstn, length_skipn.
Qed.

Lemma trimStart_nil (s : jsstring) :
  trimStart s = [] <-> forallb isWhiteSpace s = true.
Proof.
  induction s as [| c s IH]; simpl.
  - tauto.
  - destruct (isWhiteSpace c); simpl; [exact IH | split; discriminate].
Qed.

Lemma trimStart_head (s : jsstring) (c : codeUnit) (t : jsstring) :
  trimStart s = c :: t -> isWhiteSpace c = false.
Proof.
  induction s as [| d s IH]; simpl; [discriminate |].
  destruct (isWhiteSpace d) eqn:Hd; [exact IH |].
  intros [= <- _]. exact Hd.
Qed.

Lemma trimEnd_nil (s : jsstring) :
  trimEnd s = [] <-> forallb isWhiteSpace s = true.
Proof.
  induction s as [| c s IH]; simpl.
  - tauto.
  - destruct (trimEnd s) as [| d t].
    + destruct (isWhiteSpace c); simpl.
      * tauto.
      * split; discriminate.
    + split; [discriminate |].
      rewrite andb_true_iff. intros [_ H]. apply IH in H. discriminate.
Qed.

(** [s.trim() === ""] exactly when [s] holds nothing but white space. *)
Lemma trim_nil (s : jsstring) :
  trim s = [] <-> forallb isWhiteSpace s = true.
Proof.
  unfold trim. rewrite trimEnd_nil. split.
  - intros H. apply trimStart_nil.
    destruct (trimStart s) as [| c t] eqn:E; [reflexivity |].
    apply trimStart_head in E. simpl in H. rewrite E in H. discriminate.
  - intros H. apply trimStart_nil in H. now rewrite H.
Qed.

Lemma streq_nil (s : jsstring) : streq s [] = true <-> s = [].
Proof. destruct s; simpl; split; congruence. Qed.

Lemma digits_length (fuel : nat) :
  forall (k : nat) (n : N) (acc : jsstring),
    (n < 10 ^ N.of_nat (S k))%N ->
    length (digits fuel n acc) <= length acc + S k.
Proof.
  induction fuel as [| fuel IH]; intros k n acc Hn; simpl.
  - lia.
  - destruct (N.eqb_spec (n / 10) 0) as [Hz | Hz].
    + simpl. lia.
    + destruct k as [| k].
      * exfalso. apply Hz. apply N.div_small. exact Hn.
      * specialize (IH k (n / 10)%N ((48 + n mod 10)%N :: acc)).
        simpl length in IH. 
        assert (n / 10 < 10 ^ N.of_nat (S k))%N.
        { apply N.Div0.div_lt_upper_bound.
          replace (N.of_nat (S (S k))) with (N.succ (N.of_nat (S k))) in Hn by lia.
          rewrite N.pow_succ_r' in Hn. exact Hn. }
        specialize (IH H). lia.
Qed.

(** A number below 10^k (k >= 1) renders in at most k characters. *)
Lemma decimal_length (k n : nat) :
  (N.of_nat n < 10 ^ N.of_nat (S k))%N -> length (decimal n) <= S k.
Proof.
  intros H. unfold decimal. cbv zeta.
  apply (digits_length (S (N.to_nat (N.log2 (N.of_nat n)))) k (N.of_nat n) []) in H.
  exact H.
Qed.

Lemma numberOf_app (s t : jsstring) :
  forall acc : N, numberOf (s ++ t) acc = numberOf t (numberOf s acc).
Proof.
  induction s as [| c s IH]; intros acc; cbn [app numberOf]; auto.
Qed.

Lemma digits_value (fuel : nat) :
  forall (n : N) (acc : jsstring),
    (n < 2 ^ N.of_nat fuel)%N ->
    exists ds : jsstring,
      digits fuel n acc = ds ++ acc /\
      forall a : N, numberOf ds a = (a * 10 ^ N.of_nat (length ds) + n)%N.
Proof.
  induction fuel as [| fuel IH]; intros n acc Hn.
  - exists []. cbn in Hn. assert (n = 0%N) by lia. subst n.
    split; [reflexivity |]. intros a. cbn [numberOf length].
    change (N.of_nat 0) with 0%N. rewrite N.pow_0_r. lia.
  - cbn [digits].
    pose proof (N.div_mod n 10 ltac:(lia)) as Hdm.
    pose proof (N.mod_upper_bound n 10 ltac:(lia)) as Hmod.
    replace (N.of_nat (S fuel)) with (N.succ (N.of_nat fuel)) in Hn by lia.
    rewrite N.pow_succ_r' in Hn.
    revert Hdm Hmod.
    generalize (n / 10)%N as q, (n mod 10)%N as r. intros q r Hdm Hmod.
    destruct (N.eqb_spec q 0) as [Hz | Hz].
    + exists [(48 + r)%N]. split; [reflexivity |].
      intros a. cbn [numberOf length].
      change (N.of_nat 1) with 1%N. rewrite N.pow_1_r. lia.
    + destruct (IH q ((48 + r)%N :: acc)) as (ds & E & V); [lia |].
      exists (ds ++ [(48 + r)%N]). split.
      * rewrite E, <- app_assoc. reflexivity.
      * intros a. rewrite numberOf_app, V, length_app. cbn [numberOf length].
        replace (N.of_nat (length ds + 1)) with (N.succ (N.of_nat (length ds)))
          by lia.
        rewrite N.pow_succ_r'. lia.
Qed.

(** The rendering denotes the number: the loop never runs short. *)
Lemma decimal_value (n : nat) : numberOf (decimal n) 0 = N.of_nat n.
Proof.
  unfold decimal. cbv zeta.
  destruct (digits_value (S (N.to_nat (N.log2 (N.of_nat n)))) (N.of_nat n) [])
    as (ds & E & V).
  - destruct (N.eq_dec (N.of_nat n) 0) as [-> | Hpos]; [reflexivity |].
    replace (N.of_nat (S (N.to_nat (N.log2 (N.of_nat n)))))
      with (N.succ (N.log2 (N.of_nat n))) by lia.
    apply N.log2_spec. lia.
  - rewrite E, app_nil_r, V. lia.
Qed.

Example decimal_samples :
  decimal 0 = lit "0" /\ decimal 3 = lit "3" /\ decimal 10 = lit "10"
  /\ decimal 109 = lit "109" /\ decimal 4096 = lit "4096".
Proof. vm_compute. repeat split. Qed.

Example string_samples :
  substring (lit "abcdef") 2 4 = lit "cd"
  /\ substring (lit "abcdef") 4 99 = lit "ef"
  /\ substring (lit "abcdef") 5 1 = lit "bcde"
  /\ trim (lit "  a b  ") = lit "a b"
  /\ trim (9 :: 10 :: 160 :: 8232 :: 65279 :: lit " ")%N = []
  /\ messagePart 3 0 (lit "Hello") = lit "(1/3) Hello".
Proof. vm_compute. repeat split. Qed.

Lemma lit_cons (c : ascii) (s : string) :
  lit (String.String c s) = N_of_ascii c :: lit s.
Proof. reflexivity. Qed.

Lemma messagePart_length (total i : nat) (chunk : jsstring) :
  length (messagePart total i chunk) =
  4 + length (decimal (i + 1)) + length (decimal total) + length chunk.
Proof.
  unfold messagePart. rewrite !length_app. simpl. lia.
Qed.

(** ** The delivery plan *)

Lemma CHUNK_SIZE_eq : CHUNK_SIZE = 4076.
Proof. reflexivity. Qed.

Lemma ceilDiv_0 (b : nat) : 0 < b -> ceilDiv 0 b = 0.
Proof. intros Hb. unfold ceilDiv. apply Nat.div_small. lia. Qed.

Lemma ceilDiv_step (a b : nat) :
  0 < b -> 0 < a -> ceilDiv a b = S (ceilDiv (a - b) b).
Proof.
  intros Hb Ha. unfold ceilDiv.
  destruct (Nat.le_gt_cases b a) as [Hba | Hba].
  - replace (a + (b - 1)) with ((a - b + (b - 1)) + 1 * b) by lia.
    rewrite Nat.div_add by lia. lia.
  - replace (a - b) with 0 by lia.
    rewrite (Nat.div_small (0 + (b - 1)) b) by lia.
    symmetry. apply (Nat.div_unique _ _ 1 (a - 1)); lia.
Qed.

(** [ceilDiv a b] is the least [n] with [a <= n * b]. *)
Lemma ceilDiv_least (a b n : nat) :
  0 < b -> (ceilDiv a b <= n <-> a <= n * b).
Proof.
  intros Hb. unfold ceilDiv. split.
  - intros H.
    pose proof (Nat.div_mod_eq (a + (b - 1)) b) as E.
    pose proof (Nat.mod_upper_bound (a + (b - 1)) b) as U. nia.
  - intros H. apply Nat.lt_succ_r. apply Nat.Div0.div_lt_upper_bound. nia.
Qed.

Section Plan.

Variable longText : jsstring.

(** With enough fuel the loop appends the slices from [i] on, whatever the
    fuel is. *)
Lemma splitLoop_spec (fuel : nat) :
  forall (i : nat) (acc : list jsstring),
    length longText - i <= fuel ->
    splitLoop fuel longText i acc =
    acc ++ map (slice longText i) (seq 0 (ceilDiv (length longText - i) CHUNK_SIZE)).
Proof.
  pose proof CHUNK_SIZE_eq as HC.
  induction fuel as [| fuel IH]; intros i acc Hf; cbn [splitLoop].
  - replace (length longText - i) with 0 by lia.
    rewrite ceilDiv_0 by lia. cbn. now rewrite app_nil_r.
  - destruct (Nat.ltb_spec i (length longText)) as [Hi | Hi].
    + rewrite IH by lia.
      rewrite (ceilDiv_step (length longText - i)) by lia.
      cbn [seq map]. rewrite <- seq_shift, map_map, <- app_assoc. cbn [app].
      f_equal. f_equal.
      * unfold slice. f_equal; lia.
      * replace (length longText - (i + CHUNK_SIZE))
          with (length longText - i - CHUNK_SIZE) by lia.
        apply map_ext. intros j. unfold slice. f_equal; lia.
    + replace (length longText - i) with 0 by lia.
      rewrite ceilDiv_0 by lia. cbn. now rewrite app_nil_r.
Qed.

Lemma splitLoop_concat (fuel : nat) :
  forall (i : nat) (acc : list jsstring),
    length longText - i <= fuel ->
    concat (splitLoop fuel longText i acc) = concat acc ++ skipn i longText.
Proof.
  pose proof CHUNK_SIZE_eq as HC.
  induction fuel as [| fuel IH]; intros i acc Hf; cbn [splitLoop].
  - rewrite skipn_all2 by lia. now rewrite app_nil_r.
  - destruct (Nat.ltb_spec i (length longText)) as [Hi | Hi].
    + rewrite IH by lia. rewrite concat_app. cbn [concat].
      rewrite app_nil_r, <- app_assoc. f_equal.
      rewrite substring_from by lia.
      replace (i + CHUNK_SIZE - i) with CHUNK_SIZE by lia.
      rewrite (Nat.add_comm i CHUNK_SIZE), <- skipn_skipn.
      apply firstn_skipn.
    + rewrite skipn_all2 by lia. now rewrite app_nil_r.
Qed.

Lemma splitIntoChunks_spec :
  splitIntoChunks longText =
  map (slice longText 0) (seq 0 (ceilDiv (length longText) CHUNK_SIZE)).
Proof.
  unfold splitIntoChunks. rewrite splitLoop_spec by lia.
  now rewrite Nat.sub_0_r.
Qed.

Lemma splitIntoChunks_length :
  length (splitIntoChunks longText) = ceilDiv (length longText) CHUNK_SIZE.
Proof. now rewrite splitIntoChunks_spec, length_map, length_seq. Qed.

Lemma splitIntoChunks_concat :
  concat (splitIntoChunks longText) = longText.
Proof. unfold splitIntoChunks. now rewrite splitLoop_concat by lia. Qed.

Lemma splitIntoChunks_nth (j : nat) :
  j < length (splitIntoChunks longText) ->
  nth j (splitIntoChunks longText) [] = slice longText 0 j.
Proof.
  rewrite splitIntoChunks_length. intros Hj.
  rewrite splitIntoChunks_spec.
  rewrite (nth_indep _ [] (slice longText 0 0)) by now rewrite length_map, length_seq.
  rewrite (map_nth (slice longText 0) _ 0 j), seq_nth by exact Hj. reflexivity.
Qed.

(** Every body has [CHUNK_SIZE] characters, the last one what is left. *)
Lemma splitIntoChunks_nth_length (j : nat) :
  j < length (splitIntoChunks longText) ->
  length (nth j (splitIntoChunks longText) []) =
  Nat.min CHUNK_SIZE (length longText - j * CHUNK_SIZE).
Proof.
  intros Hj. rewrite splitIntoChunks_nth by exact Hj.
  unfold slice. rewrite substring_length by lia.
  f_equal; lia.
Qed.

End Plan.

(** ** The sending loop *)

Section Loop.

Variable net : network.
Variable to : jsstring.
Variable ms total : nat.

Lemma sendParts_cons (i : nat) (chunk : jsstring) (rest : list jsstring)
    (k : nat) :
  sendParts net to ms total i (chunk :: rest) k =
  if net k to (partPayload total i chunk) then
    let '(t, k', r) := sendParts net to ms total (i + 1) rest (S k) in
    (Send to (partPayload total i chunk) true
     :: (if negb (oversized total i chunk) && (i <? total - 1)
         then [Delay ms] else []) ++ t, k', r)
  else
    (abortEvents net to total i chunk k,
     if negb (oversized total i chunk) && (i =? 0) then S (S k) else S k,
     if oversized total i chunk then Thrown else Returned tt).
Proof.
  cbn [sendParts]. unfold abortEvents, partPayload, oversized.
  destruct (MAX_LENGTH <? length (messagePart total i chunk)).
  - unfold bind, sendWhatsAppMessage.
    destruct (net k to _); [| reflexivity].
    destruct (sendParts net to ms total (i + 1) rest (S k)) as [[t k'] r].
    reflexivity.
  - unfold bind, tryCatch, sendWhatsAppMessage, delay, ret.
    destruct (net k to _).
    + destruct (i <? total - 1);
        destruct (sendParts net to ms total (i + 1) rest (S k)) as [[t k'] r];
        reflexivity.
    + destruct (i =? 0); [destruct (net (S k) to NOTICE) |]; reflexivity.
Qed.

(** The shape of every run of the loop: the parts go out in order while the
    network accepts them; the first refusal ends the loop. *)
Lemma sendParts_run (rest : list jsstring) :
  forall i k : nat,
  exists m : nat,
    m <= length rest /\
    (forall j, j < m ->
       net (k + j) to (partPayload total (i + j) (nth j rest [])) = true) /\
    ((m = length rest /\
      events (sendParts net to ms total i rest k) =
        pacedSends to ms total i rest /\
      outcome (sendParts net to ms total i rest k) = Returned tt)
     \/
     (m < length rest /\
      net (k + m) to (partPayload total (i + m) (nth m rest [])) = false /\
      events (sendParts net to ms total i rest k) =
        pacedSends to ms total i (firstn m rest)
        ++ abortEvents net to total (i + m) (nth m rest []) (k + m) /\
      outcome (sendParts net to ms total i rest k) =
        if oversized total (i + m) (nth m rest [])
        then Thrown else Returned tt)).
Proof.
  induction rest as [| chunk rest' IH]; intros i k.
  - exists 0. split; [cbn; lia |]. split; [intros j Hj; lia |].
    left. repeat split.
  - rewrite sendParts_cons.
    destruct (net k to (partPayload total i chunk)) eqn:Hnet.
    + destruct (IH (i + 1) (S k)) as (m & Hm & Hok & Hend).
      exists (S m). split; [cbn; lia |]. split.
      * intros [| j] Hj.
        -- rewrite !Nat.add_0_r. exact Hnet.
        -- replace (k + S j) with (S k + j) by lia.
           replace (i + S j) with (i + 1 + j) by lia.
           apply Hok. lia.
      * replace (k + S m) with (S k + m) by lia.
        replace (i + S m) with (i + 1 + m) by lia.
        cbn [nth firstn pacedSends length].
        destruct (sendParts net to ms total (i + 1) rest' (S k))
          as [[t k'] r].
        unfold events, outcome in *. cbn [fst snd] in *.
        destruct Hend as [(-> & -> & ->) | (Hlt & Hrej & -> & ->)].
        -- left. repeat split.
        -- right. split; [lia |]. split; [exact Hrej |].
           split; [| reflexivity].
           cbn [app]. f_equal. now rewrite app_assoc.
    + exists 0. split; [cbn; lia |]. split; [intros j Hj; lia |].
      right. rewrite !Nat.add_0_r. cbn [nth firstn pacedSends app].
      split; [cbn; lia |]. split; [exact Hnet |]. split; reflexivity.
Qed.

End Loop.

(** ** Payloads *)

Lemma partPayload_length (total i : nat) (chunk : jsstring) :
  length (partPayload total i chunk) <= MAX_LENGTH.
Proof.
  unfold partPayload, oversized.
  destruct (Nat.ltb_spec MAX_LENGTH (length (messagePart total i chunk)))
    as [H | H]; [| exact H].
  rewrite length_app, substring_length by lia.
  change (length (lit "...")) with 3. unfold MAX_LENGTH in *. lia.
Qed.


(** Every part begins with the opening parenthesis of its prefix. *)
Lemma partPayload_head (total i : nat) (chunk : jsstring) :
  exists t, partPayload total i chunk = 40%N :: t.
Proof.
  unfold partPayload. destruct (oversized total i chunk).
  - rewrite substring_from by lia. rewrite skipn_O.
    unfold messagePart. rewrite lit_cons.
    change (MAX_LENGTH - 3 - 0) with (S 4092).
    cbn [app]. rewrite firstn_cons. cbn [app]. eauto.
  - unfold messagePart. rewrite lit_cons. cbn [app]. eauto.
Qed.

Lemma partPayload_not_NOTICE (total i : nat) (chunk : jsstring) :
  partPayload total i chunk <> NOTICE.
Proof.
  destruct (partPayload_head total i chunk) as [t ->]. discriminate.
Qed.

Lemma sentPayloads_app (t1 t2 : list event) :
  sentPayloads (t1 ++ t2) = sentPayloads t1 ++ sentPayloads t2.
Proof.
  induction t1 as [| [to p b | ms] t1 IH]; cbn; [| rewrite IH |]; auto.
Qed.

Lemma sentPayloads_pacedSends (to : jsstring) (ms total : nat)
    (bodies : list jsstring) :
  forall i : nat,
    sentPayloads (pacedSends to ms total i bodies) =
    map (fun j => partPayload total (i + j) (nth j bodies []))
        (seq 0 (length bodies)).
Proof.
  induction bodies as [| chunk bodies IH]; intros i; [reflexivity |].
  cbn [pacedSends sentPayloads length seq map nth].
  rewrite Nat.add_0_r. f_equal.
  rewrite sentPayloads_app, IH, <- seq_shift, map_map.
  destruct (negb (oversized total i chunk) && (i <? total - 1)); cbn [sentPayloads app];
    apply map_ext; intros j; f_equal; lia.
Qed.

(** The notice is none of the parts. *)
Lemma NOTICE_not_in_pacedSends (to : jsstring) (ms total i : nat)
    (bodies : list jsstring) :
  ~ In NOTICE (sentPayloads (pacedSends to ms total i bodies)).
Proof.
  rewrite sentPayloads_pacedSends. intros H.
  apply in_map_iff in H. destruct H as (j & Hj & _).
  exact (partPayload_not_NOTICE _ _ _ Hj).
Qed.

Lemma pacedSends_withinLimit (to : jsstring) (ms total : nat)
    (bodies : list jsstring) :
  forall i : nat, Forall withinLimit (pacedSends to ms total i bodies).
Proof.
  induction bodies as [| chunk bodies IH]; intros i; cbn [pacedSends].
  - constructor.
  - constructor; [apply partPayload_length |].
    apply Forall_app. split; [| apply IH].
    destruct (negb (oversized total i chunk) && (i <? total - 1));
      repeat constructor.
Qed.

Lemma abortEvents_withinLimit (net : network) (to : jsstring)
    (total i : nat) (chunk : jsstring) (k : nat) :
  Forall withinLimit (abortEvents net to total i chunk k).
Proof.
  unfold abortEvents. constructor; [apply partPayload_length |].
  destruct (negb (oversized total i chunk) && (i =? 0)); [| constructor].
  constructor; [| constructor].
  apply Nat.leb_le. vm_compute. reflexivity.
Qed.

Lemma sendParts_withinLimit (net : network) (to : jsstring) (ms total i : nat)
    (rest : list jsstring) (k : nat) :
  Forall withinLimit (events (sendParts net to ms total i rest k)).
Proof.
  destruct (sendParts_run net to ms total rest i k)
    as (m & _ & _ & [(_ & -> & _) | (_ & _ & -> & _)]).
  - apply pacedSends_withinLimit.
  - apply Forall_app. split.
    + apply pacedSends_withinLimit.
    + apply abortEvents_withinLimit.
Qed.

(** ** The guard and the three paths of sendSplitMessage *)

Lemma emptyOrInvalid_string (s : jsstring) (k : nat) :
  emptyOrInvalid (VString s) k = ([], k, Returned (forallb isWhiteSpace s)).
Proof.
  unfold emptyOrInvalid, truthy, isString. cbn [negb].
  rewrite negb_involutive.
  destruct (streq s []) eqn:E.
  - apply streq_nil in E. subst s. reflexivity.
  - unfold ret. f_equal. f_equal.
    apply eq_true_iff_eq. now rewrite streq_nil, trim_nil.
Qed.

Lemma emptyOrInvalid_other (v : value) (k : nat) :
  (forall s, v <> VString s) -> emptyOrInvalid v k = ([], k, Returned true).
Proof.
  intros Hv. destruct v as [| | [|] | z | | s |]; try reflexivity.
  - unfold emptyOrInvalid, truthy. destruct (negb (negb (z =? 0)%Z)); reflexivity.
  - now destruct (Hv s).
Qed.

Section Paths.

Variable net : network.
Variable to : jsstring.
Variable ms : option nat.

Lemma sendSplitMessage_blank (s : jsstring) (k : nat) :
  forallb isWhiteSpace s = true ->
  sendSplitMessage net to (VString s) ms k = ([], k, Returned tt).
Proof.
  intros H. unfold sendSplitMessage, bind.
  rewrite emptyOrInvalid_string, H. reflexivity.
Qed.

Lemma sendSplitMessage_short (s : jsstring) (k : nat) :
  forallb isWhiteSpace s = false -> length s <= MAX_LENGTH ->
  sendSplitMessage net to (VString s) ms k = sendWhatsAppMessage net to s k.
Proof.
  intros H Hlen. unfold sendSplitMessage, bind.
  rewrite emptyOrInvalid_string, H.
  apply Nat.leb_le in Hlen. rewrite Hlen.
  unfold sendWhatsAppMessage. now destruct (net k to s).
Qed.

Lemma sendSplitMessage_long (s : jsstring) (k : nat) :
  forallb isWhiteSpace s = false -> MAX_LENGTH < length s ->
  sendSplitMessage net to (VString s) ms k =
  sendParts net to (orDefault 1500 ms) (length (splitIntoChunks s)) 0
    (splitIntoChunks s) k.
Proof.
  intros H Hlen. unfold sendSplitMessage, bind.
  rewrite emptyOrInvalid_string, H.
  apply Nat.leb_gt in Hlen. rewrite Hlen.
  now destruct (sendParts _ _ _ _ _ _ _) as [[t k'] r].
Qed.

Lemma sendSplitMessage_other (v : value) (k : nat) :
  (forall s, v <> VString s) ->
  sendSplitMessage net to v ms k = ([], k, Returned tt).
Proof.
  intros H. unfold sendSplitMessage, bind.
  rewrite emptyOrInvalid_other by exact H. reflexivity.
Qed.

End Paths.

(** ** Properties of one delivery *)

(** C9. A text that is empty or holds only white space, of any length, makes
    [deliver] issue no request at all and return normally. *)
Theorem blank_text_is_a_noop (net : network) (to text : jsstring)
    (ms : option nat) :
  forallb isWhiteSpace text = true ->
  deliver net to (VString text) ms = ([], 0, Returned tt).
Proof. apply sendSplitMessage_blank. Qed.

Lemma blank_text_is_a_noop_witness :
  deliver alwaysReject (lit "15550100") (VString (repeat 32%N 5000)) None
  = ([], 0, Returned tt).
Proof. apply blank_text_is_a_noop. vm_compute. reflexivity. Defined.

(** C10. A [longText] that is not a string (null, undefined, a number, a
    boolean, an object) makes [deliver] issue no request and return normally:
    the guard settles on [!longText] or on the [typeof] test, so that
    neither [trim] nor [length] is ever evaluated on it. *)
Theorem non_string_is_a_noop (net : network) (to : jsstring) (v : value)
    (ms : option nat) :
  (forall s, v <> VString s) ->
  deliver net to v ms = ([], 0, Returned tt).
Proof. apply sendSplitMessage_other. Qed.

Lemma non_string_is_a_noop_witness :
  deliver alwaysReject (lit "15550100") (VNumber 42) None = ([], 0, Returned tt)
  /\ deliver alwaysReject (lit "15550100") VNull None = ([], 0, Returned tt).
Proof.
  split; apply non_string_is_a_noop; intros s; discriminate.
Defined.

(** C4. A text that is not blank and has at most 4096 characters (4096
    included) is sent in exactly one request, whose body is the text itself
    with no prefix, and [deliver] completes as that request does: it returns
    when the request is accepted and throws when it is refused. *)
Theorem short_text_sent_verbatim (net : network) (to text : jsstring)
    (ms : option nat) :
  forallb isWhiteSpace text = false ->
  length text <= MAX_LENGTH ->
  deliver net to (VString text) ms =
  ([Send to text (net 0 to text)], 1,
   if net 0 to text then Returned tt else Thrown).
Proof.
  intros Hb Hlen. unfold deliver.
  now rewrite sendSplitMessage_short.
Qed.

Lemma short_text_sent_verbatim_witness :
  let text := repeat 97%N 4096 in
  let to := lit "15550100" in
  deliver alwaysAccept to (VString text) None
  = ([Send to text true], 1, Returned tt).
Proof.
  intros text to.
  apply (short_text_sent_verbatim alwaysAccept to text None).
  - vm_compute. reflexivity.
  - apply Nat.leb_le. vm_compute. reflexivity.
Defined.

(** C3. Whatever [deliver] is called with, every body it hands to the send
    primitive (the short text, a prefixed part, a truncated part or the
    notice) has at most 4096 characters. *)
Theorem every_payload_within_limit (net : network) (to : jsstring)
    (longText : value) (ms : option nat) :
  forall (recipient payload : jsstring) (accepted : bool),
    In (Send recipient payload accepted) (events (deliver net to longText ms)) ->
    length payload <= 4096.
Proof.
  assert (H : Forall withinLimit (events (deliver net to longText ms))).
  { unfold deliver.
    destruct longText as [| | b | z | | s |];
      try (rewrite sendSplitMessage_other by (intros s'; discriminate);
           constructor).
    destruct (forallb isWhiteSpace s) eqn:Hb.
    - rewrite sendSplitMessage_blank by exact Hb. constructor.
    - destruct (Nat.le_gt_cases (length s) MAX_LENGTH) as [Hlen | Hlen].
      + rewrite sendSplitMessage_short by assumption.
        constructor; [exact Hlen | constructor].
      + rewrite sendSplitMessage_long by assumption.
        apply sendParts_withinLimit. }
  intros recipient payload accepted Hin.
  rewrite Forall_forall in H. exact (H _ Hin).
Qed.

Lemma every_payload_within_limit_witness :
  let text := xs (9 * 1000) in
  length (payloadAt text 1) <= 4096.
Proof.
  intros text.
  apply (every_payload_within_limit alwaysAccept (lit "15550100")
           (VString text) None (lit "15550100") (payloadAt text 1) true).
  vm_compute. right. right. left. reflexivity.
Defined.

(** ** Runs over a multi-part plan *)

Lemma plan_nonempty (text : jsstring) :
  MAX_LENGTH < length text -> 0 < length (splitIntoChunks text).
Proof.
  intros long. rewrite splitIntoChunks_length.
  apply Nat.lt_nge. intros H.
  apply (ceilDiv_least (length text) CHUNK_SIZE 0) in H.
  - unfold MAX_LENGTH in long. lia.
  - rewrite CHUNK_SIZE_eq. lia.
Qed.

Section Runs.

Variable net : network.
Variable to : jsstring.
Variable text : jsstring.
Variable ms : option nat.

Hypothesis not_blank : forallb isWhiteSpace text = false.
Hypothesis long : MAX_LENGTH < length text.

(** In a run over a plan each part takes one request, so that the request
    for part [j] (counted from 0) is request number [j]. *)
Lemma deliver_run :
  exists m : nat,
    m <= length (splitIntoChunks text) /\
    (forall j, j < m -> net j to (payloadAt text j) = true) /\
    ((m = length (splitIntoChunks text) /\
      events (deliver net to (VString text) ms) =
        pacedSends to (orDefault 1500 ms) (length (splitIntoChunks text)) 0
          (splitIntoChunks text) /\
      outcome (deliver net to (VString text) ms) = Returned tt)
     \/
     (m < length (splitIntoChunks text) /\
      net m to (payloadAt text m) = false /\
      events (deliver net to (VString text) ms) =
        pacedSends to (orDefault 1500 ms) (length (splitIntoChunks text)) 0
          (firstn m (splitIntoChunks text))
        ++ abortEvents net to (length (splitIntoChunks text)) m
             (nth m (splitIntoChunks text) []) m /\
      outcome (deliver net to (VString text) ms) =
        if oversizedAt text m then Thrown else Returned tt)).
Proof.
  unfold deliver. rewrite sendSplitMessage_long by assumption.
  exact (sendParts_run net to (orDefault 1500 ms)
           (length (splitIntoChunks text)) (splitIntoChunks text) 0 0).
Qed.

(** The run in which part [i] is the first one refused. *)
Lemma deliver_refused (i : nat) :
  i < length (splitIntoChunks text) ->
  (forall j, j < i -> net j to (payloadAt text j) = true) ->
  net i to (payloadAt text i) = false ->
  events (deliver net to (VString text) ms) =
    pacedSends to (orDefault 1500 ms) (length (splitIntoChunks text)) 0
      (firstn i (splitIntoChunks text))
    ++ abortEvents net to (length (splitIntoChunks text)) i
         (nth i (splitIntoChunks text) []) i /\
  outcome (deliver net to (VString text) ms) =
    if oversizedAt text i then Thrown else Returned tt.
Proof.
  intros Hi Hacc Hrej.
  destruct deliver_run as (m & Hm & Hok & [(-> & _) | (Hlt & Hrej' & He & Ho)]).
  - rewrite (Hok i Hi) in Hrej. discriminate.
  - destruct (Nat.lt_trichotomy m i) as [H | [H | H]].
    + rewrite (Hacc m H) in Hrej'. discriminate.
    + subst m. now split.
    + rewrite (Hok i H) in Hrej. discriminate.
Qed.

(** The run in which every part is accepted. *)
Lemma deliver_accepted :
  (forall j, j < length (splitIntoChunks text) ->
     net j to (payloadAt text j) = true) ->
  events (deliver net to (VString text) ms) =
    pacedSends to (orDefault 1500 ms) (length (splitIntoChunks text)) 0
      (splitIntoChunks text) /\
  outcome (deliver net to (VString text) ms) = Returned tt.
Proof.
  intros Hacc.
  destruct deliver_run as (m & Hm & Hok & [(_ & He & Ho) | (Hlt & Hrej & _)]).
  - now split.
  - rewrite (Hacc m Hlt) in Hrej. discriminate.
Qed.

Lemma sentPayloads_prefix (i : nat) :
  i <= length (splitIntoChunks text) ->
  sentPayloads
    (pacedSends to (orDefault 1500 ms) (length (splitIntoChunks text)) 0
       (firstn i (splitIntoChunks text))) =
  map (payloadAt text) (seq 0 i).
Proof.
  clear not_blank long.
  intros Hi. rewrite sentPayloads_pacedSends.
  rewrite length_firstn, Nat.min_l by exact Hi.
  apply map_ext_in. intros j Hj. apply in_seq in Hj.
  unfold payloadAt. cbn [Nat.add].
  rewrite nth_firstn.
  destruct (Nat.ltb_spec j i); [reflexivity | lia].
Qed.

Lemma sentPayloads_refused (i : nat) :
  i < length (splitIntoChunks text) ->
  (forall j, j < i -> net j to (payloadAt text j) = true) ->
  net i to (payloadAt text i) = false ->
  sentPayloads (events (deliver net to (VString text) ms)) =
  map (payloadAt text) (seq 0 (S i))
  ++ (if negb (oversizedAt text i) && (i =? 0) then [NOTICE] else []).
Proof.
  intros Hi Hacc Hrej.
  destruct (deliver_refused i Hi Hacc Hrej) as [-> _].
  rewrite sentPayloads_app, sentPayloads_prefix by lia.
  rewrite seq_S, map_app, <- app_assoc. f_equal.
  unfold abortEvents, oversizedAt.
  destruct (negb (oversized _ i _) && (i =? 0)); reflexivity.
Qed.

End Runs.

(** Within the length a JavaScript string can have, the first part of a plan
    is never rendered over the limit: its prefix takes at most 20
    characters. *)
Lemma first_part_regular (text : jsstring) :
  representable text -> oversizedAt text 0 = false.
Proof.
  intros Hlen. unfold oversizedAt, oversized.
  apply Nat.ltb_ge. rewrite messagePart_length.
  assert (Hbody : length (nth 0 (splitIntoChunks text) []) <= 4076).
  { destruct (Nat.eq_dec (length (splitIntoChunks text)) 0) as [E | E].
    - apply length_zero_iff_nil in E. rewrite E. cbn. lia.
    - rewrite splitIntoChunks_nth_length by lia. rewrite CHUNK_SIZE_eq. lia. }
  assert (Htotal : length (decimal (length (splitIntoChunks text))) <= 15).
  { apply (decimal_length 14).
    change (10 ^ N.of_nat 15)%N with 1000000000000000%N.
    rewrite splitIntoChunks_length. unfold ceilDiv. rewrite CHUNK_SIZE_eq.
    pose proof (Nat.Div0.mul_div_le (length text + (4076 - 1)) 4076) as H.
    unfold representable, MAX_STRING_LENGTH in Hlen. lia. }
  change (length (decimal (0 + 1))) with 1.
  unfold MAX_LENGTH. lia.
Qed.

(** A plan of fewer than 10^8 parts, that is a text of at most
    4076 * (10^8 - 1) characters, has no oversized part: both numbers of a
    prefix take at most 8 characters. *)
Lemma plan_regular (text : jsstring) (j : nat) :
  (N.of_nat (length text) <= 407599995924)%N ->
  j < length (splitIntoChunks text) ->
  oversizedAt text j = false.
Proof.
  intros Hlen Hj. unfold oversizedAt, oversized.
  apply Nat.ltb_ge. rewrite messagePart_length.
  rewrite splitIntoChunks_nth_length by exact Hj.
  assert (Hn : (N.of_nat (length (splitIntoChunks text)) < 100000000)%N).
  { rewrite splitIntoChunks_length. unfold ceilDiv. rewrite CHUNK_SIZE_eq.
    pose proof (Nat.Div0.mul_div_le (length text + (4076 - 1)) 4076) as H.
    lia. }
  assert (H1 : length (decimal (j + 1)) <= 8).
  { apply (decimal_length 7). change (10 ^ N.of_nat 8)%N with 100000000%N. lia. }
  assert (H2 : length (decimal (length (splitIntoChunks text))) <= 8).
  { apply (decimal_length 7). change (10 ^ N.of_nat 8)%N with 100000000%N. lia. }
  rewrite CHUNK_SIZE_eq. unfold MAX_LENGTH. lia.
Qed.

(** *** The scenarios of the specification *)

(** A: 9000 characters, every request accepted. *)
Example scenario_A :
  deliver alwaysAccept (lit "15550100") (VString (xs (9 * 1000))) None =
  ([Send (lit "15550100") (lit "(1/3) " ++ xs 4076) true; Delay 1500;
    Send (lit "15550100") (lit "(2/3) " ++ xs 4076) true; Delay 1500;
    Send (lit "15550100") (lit "(3/3) " ++ xs 848) true],
   3, Returned tt).
Proof. vm_compute. reflexivity. Qed.

(** B: the empty text. *)
Example scenario_B :
  deliver alwaysReject (lit "15550100") (VString []) None = ([], 0, Returned tt).
Proof. reflexivity. Qed.

(** C: 4096 characters, one request without prefix; 4097 make two parts. *)
Example scenario_C :
  deliver alwaysAccept (lit "15550100") (VString (repeat 97%N 4096)) None =
  ([Send (lit "15550100") (repeat 97%N 4096) true], 1, Returned tt)
  /\ sentPayloads
       (events (deliver alwaysAccept (lit "15550100")
                  (VString (repeat 97%N 4097)) None)) =
     [lit "(1/2) " ++ repeat 97%N 4076; lit "(2/2) " ++ repeat 97%N 21].
Proof. vm_compute. split; reflexivity. Qed.

(** D: part 2 of 3 refused. Part 3 is not attempted and no notice is sent;
    the call returns normally. *)
Example scenario_D :
  deliver secondRefused (lit "15550100") (VString (xs (9 * 1000))) None =
  ([Send (lit "15550100") (lit "(1/3) " ++ xs 4076) true; Delay 1500;
    Send (lit "15550100") (lit "(2/3) " ++ xs 4076) false],
   2, Returned tt).
Proof. vm_compute. reflexivity. Qed.

(** Part 1 refused, and the notice too. *)
Example scenario_first_refused :
  deliver alwaysReject (lit "15550100") (VString (xs (9 * 1000))) None =
  ([Send (lit "15550100") (lit "(1/3) " ++ xs 4076) false;
    Send (lit "15550100") NOTICE false],
   2, Returned tt).
Proof. vm_compute. reflexivity. Qed.

(** The claim of C1 as the specification words it ("the failure is reported
    as the outcome of the whole deliver call") does not hold: with a text of
    4097 characters on a network that refuses every request, the first part
    is refused, yet [deliver] returns normally, as it does after a complete
    delivery. *)
Lemma refused_part_not_reported :
  ~ (forall (net : network) (to text : jsstring) (ms : option nat) (i : nat),
       forallb isWhiteSpace text = false ->
       MAX_LENGTH < length text ->
       i < length (splitIntoChunks text) ->
       (forall j, j < i -> net j to (payloadAt text j) = true) ->
       net i to (payloadAt text i) = false ->
       outcome (deliver net to (VString text) ms) = Thrown).
Proof.
  intros H.
  specialize (H alwaysReject (lit "15550100") (xs 4097) None 0).
  assert (E : outcome (deliver alwaysReject (lit "15550100")
                         (VString (xs 4097)) None) = Returned tt)
    by (vm_compute; reflexivity).
  rewrite H in E.
  - discriminate.
  - vm_compute. reflexivity.
  - apply Nat.ltb_lt. vm_compute. reflexivity.
  - apply Nat.ltb_lt. vm_compute. reflexivity.
  - intros j Hj. lia.
  - reflexivity.
Qed.

(** C1, amended. When the request for part [i + 1] of a multi-part plan is
    the first one refused, [deliver] issues exactly the requests for parts
    1 .. i + 1, each once and in order (no retry, no later part), followed
    only by the notice when the refused part is the first; the failure is
    not reported: the error is caught and [deliver] returns normally, as
    after a complete delivery. Only a refused truncated (oversized) part
    makes [deliver] throw. *)
Theorem refused_part_aborts_without_retry (net : network) (to text : jsstring)
    (ms : option nat) (i : nat) :
  forallb isWhiteSpace text = false ->
  MAX_LENGTH < length text ->
  i < length (splitIntoChunks text) ->
  (forall j, j < i -> net j to (payloadAt text j) = true) ->
  net i to (payloadAt text i) = false ->
  sentPayloads (events (deliver net to (VString text) ms)) =
    map (payloadAt text) (seq 0 (S i))
    ++ (if negb (oversizedAt text i) && (i =? 0) then [NOTICE] else [])
  /\ outcome (deliver net to (VString text) ms) =
     if oversizedAt text i then Thrown else Returned tt.
Proof.
  intros Hb Hlen Hi Hacc Hrej. split.
  - now apply sentPayloads_refused.
  - now apply (deliver_refused net to text ms Hb Hlen i).
Qed.

Lemma refused_part_aborts_without_retry_witness :
  let text := xs (9 * 1000) in
  let to := lit "15550100" in
  sentPayloads (events (deliver secondRefused to (VString text) None)) =
    map (payloadAt text) (seq 0 2)
    ++ (if negb (oversizedAt text 1) && (1 =? 0) then [NOTICE] else [])
  /\ outcome (deliver secondRefused to (VString text) None) =
     if oversizedAt text 1 then Thrown else Returned tt.
Proof.
  intros text to.
  apply (refused_part_aborts_without_retry secondRefused to text None 1).
  - vm_compute. reflexivity.
  - apply Nat.ltb_lt. vm_compute. reflexivity.
  - apply Nat.ltb_lt. vm_compute. reflexivity.
  - intros j Hj. destruct j; [reflexivity | lia].
  - reflexivity.
Defined.

(** C5. When the request for part [i + 1] of a multi-part plan is refused,
    the requests issued up to it are those for parts 1 .. i + 1, and nothing
    that is sent afterwards is a part of the plan: parts i + 2 .. n are never
    attempted. *)
Theorem refused_part_stops_the_plan (net : network) (to text : jsstring)
    (ms : option nat) (i : nat) :
  forallb isWhiteSpace text = false ->
  MAX_LENGTH < length text ->
  i < length (splitIntoChunks text) ->
  (forall j, j < i -> net j to (payloadAt text j) = true) ->
  net i to (payloadAt text i) = false ->
  let sent := sentPayloads (events (deliver net to (VString text) ms)) in
  firstn (S i) sent = map (payloadAt text) (seq 0 (S i)) /\
  forall (p : jsstring) (j : nat),
    In p (skipn (S i) sent) -> p <> payloadAt text j.
Proof.
  intros Hb Hlen Hi Hacc Hrej sent. subst sent.
  rewrite (sentPayloads_refused net to text ms Hb Hlen i Hi Hacc Hrej).
  assert (L : length (map (payloadAt text) (seq 0 (S i))) = S i)
    by now rewrite length_map, length_seq.
  split.
  - rewrite firstn_app, L, Nat.sub_diag, firstn_O, app_nil_r.
    apply firstn_all2. lia.
  - intros p j Hin.
    rewrite skipn_app, L, Nat.sub_diag, skipn_O in Hin.
    rewrite skipn_all2 in Hin by lia. cbn [app] in Hin.
    destruct (negb (oversizedAt text i) && (i =? 0));
      [destruct Hin as [<- | []] | destruct Hin].
    intros E. symmetry in E. revert E. apply partPayload_not_NOTICE.
Qed.

Lemma refused_part_stops_the_plan_witness :
  let text := xs (9 * 1000) in
  let to := lit "15550100" in
  let sent := sentPayloads (events (deliver secondRefused to (VString text) None)) in
  firstn 2 sent = map (payloadAt text) (seq 0 2) /\
  forall (p : jsstring) (j : nat), In p (skipn 2 sent) -> p <> payloadAt text j.
Proof.
  intros text to.
  apply (refused_part_stops_the_plan secondRefused to text None 1).
  - vm_compute. reflexivity.
  - apply Nat.ltb_lt. vm_compute. reflexivity.
  - apply Nat.ltb_lt. vm_compute. reflexivity.
  - intros j Hj. destruct j; [reflexivity | lia].
  - reflexivity.
Defined.

(** C6. On a multi-part plan the notice is sent if and only if the request
    for part 1 is refused. In that case it is sent exactly once, right after
    the refused request, and [deliver] returns normally whether the notice
    is accepted or refused; when part 1 is accepted the notice is never
    sent, whichever later part may be refused. *)
Theorem notice_iff_first_part_refused (net : network) (to text : jsstring)
    (ms : option nat) :
  forallb isWhiteSpace text = false ->
  MAX_LENGTH < length text ->
  representable text ->
  (net 0 to (payloadAt text 0) = false ->
     events (deliver net to (VString text) ms) =
       [Send to (payloadAt text 0) false; Send to NOTICE (net 1 to NOTICE)]
     /\ outcome (deliver net to (VString text) ms) = Returned tt)
  /\
  (net 0 to (payloadAt text 0) = true ->
     ~ In NOTICE (sentPayloads (events (deliver net to (VString text) ms)))).
Proof.
  intros Hb Hlen Hrep.
  pose proof (plan_nonempty text Hlen) as Hn.
  pose proof (first_part_regular text Hrep) as Hreg.
  split.
  - intros Hrej.
    destruct (deliver_refused net to text ms Hb Hlen 0 Hn) as [He Ho];
      [intros j Hj; lia | exact Hrej |].
    rewrite He, Ho, Hreg. split; [| reflexivity].
    unfold abortEvents. unfold oversizedAt in Hreg. rewrite Hreg.
    reflexivity.
  - intros Hacc Hin.
    destruct (deliver_run net to text ms Hb Hlen)
      as (m & Hm & Hok & [(_ & He & _) | (Hlt & Hrej & He & _)]);
      rewrite He in Hin.
    + exact (NOTICE_not_in_pacedSends _ _ _ _ _ Hin).
    + rewrite sentPayloads_app in Hin. apply in_app_or in Hin.
      destruct Hin as [Hin | Hin].
      * exact (NOTICE_not_in_pacedSends _ _ _ _ _ Hin).
      * destruct m as [| m]; [rewrite Hacc in Hrej; discriminate |].
        unfold abortEvents in Hin.
        rewrite Nat.eqb_compare in Hin. cbn [Nat.compare] in Hin.
        rewrite andb_false_r in Hin.
        destruct Hin as [Hin | []].
        exact (partPayload_not_NOTICE _ _ _ Hin).
Qed.

Lemma notice_iff_first_part_refused_witness :
  let text := xs 4097 in
  let to := lit "15550100" in
  (alwaysReject 0 to (payloadAt text 0) = false ->
     events (deliver alwaysReject to (VString text) None) =
       [Send to (payloadAt text 0) false; Send to NOTICE false]
     /\ outcome (deliver alwaysReject to (VString text) None) = Returned tt)
  /\
  (alwaysReject 0 to (payloadAt text 0) = true ->
     ~ In NOTICE
         (sentPayloads (events (deliver alwaysReject to (VString text) None)))).
Proof.
  intros text to.
  apply (notice_iff_first_part_refused alwaysReject to text None).
  - vm_compute. reflexivity.
  - apply Nat.ltb_lt. vm_compute. reflexivity.
  - unfold representable. apply N.leb_le. vm_compute. reflexivity.
Defined.

(** *** The plan: round trip and part count *)

(** The count of C2 is not "the minimum number of chunks satisfying the
    per-chunk size invariant": a text of 8170 characters is split into three
    parts, while two bodies of 4085 characters, with their 6-character
    prefixes, satisfy that invariant. *)
Lemma plan_not_minimal_for_size_invariant :
  ~ (forall text : jsstring,
       MAX_LENGTH < length text ->
       forall bodies : list jsstring,
         concat bodies = text -> sizeInvariant bodies ->
         length (splitIntoChunks text) <= length bodies).
Proof.
  intros H.
  specialize (H (xs (2 * 4085))).
  specialize (H ltac:(apply Nat.ltb_lt; vm_compute; reflexivity)).
  specialize (H [xs 4085; xs 4085]).
  specialize (H ltac:(vm_compute; reflexivity)).
  assert (E : length (splitIntoChunks (xs (2 * 4085))) = 3)
    by (vm_compute; reflexivity).
  rewrite E in H. cbn [length] in H.
  enough (sizeInvariant [xs 4085; xs 4085]) as I by (specialize (H I); lia).
  intros j Hj. cbn [length] in Hj.
  destruct j as [| [| j]]; [| | lia];
    apply Nat.leb_le; vm_compute; reflexivity.
Qed.

Lemma concat_length_bound (b : nat) (bodies : list jsstring) :
  (forall body, In body bodies -> length body <= b) ->
  length (concat bodies) <= length bodies * b.
Proof.
  induction bodies as [| body bodies IH]; intros H; cbn [concat length].
  - lia.
  - rewrite length_app.
    pose proof (H body (or_introl eq_refl)).
    assert (length (concat bodies) <= length bodies * b)
      by (apply IH; intros; apply H; now right).
    lia.
Qed.

(** C2, amended. For a text of more than 4096 characters, the bodies of the
    plan, concatenated in order, give back the text; there are
    ceil(length / (4096 - 20)) of them; and this is the least number of
    bodies of at most 4096 - 20 = 4076 characters each that make up the text
    (not the least number that would fit under 4096 once prefixed). These
    bodies are the ones [deliver] prefixes and sends. For 9000 characters
    ['x'] the plan has 3 parts, the first body has 4076 characters and goes
    out as ["(1/3) "] followed by the body, 4082 characters in all. *)
Theorem plan_round_trip_and_count (text : jsstring) :
  MAX_LENGTH < length text ->
  let plan := splitIntoChunks text in
  concat plan = text
  /\ length plan = (length text + (4096 - 20 - 1)) / (4096 - 20)
  /\ ((length plan - 1) * (4096 - 20) < length text
      /\ length text <= length plan * (4096 - 20))
  /\ (forall bodies : list jsstring,
        concat bodies = text ->
        (forall body, In body bodies -> length body <= 4096 - 20) ->
        length plan <= length bodies)
  /\ (forall (net : network) (to : jsstring) (ms : option nat),
        forallb isWhiteSpace text = false ->
        (forall j, j < length plan -> net j to (payloadAt text j) = true) ->
        events (deliver net to (VString text) ms) =
        pacedSends to (orDefault 1500 ms) (length plan) 0 plan)
  /\ (let planA := splitIntoChunks (xs (9 * 1000)) in
      length planA = 3
      /\ length (nth 0 planA []) = 4076
      /\ payloadAt (xs (9 * 1000)) 0 = lit "(1/3) " ++ nth 0 planA []
      /\ length (payloadAt (xs (9 * 1000)) 0) = 4082
      /\ sentPayloads
           (events (deliver alwaysAccept (lit "15550100")
                      (VString (xs (9 * 1000))) None))
         = [lit "(1/3) " ++ xs 4076; lit "(2/3) " ++ xs 4076;
            lit "(3/3) " ++ xs 848]).
Proof.
  intros Hlen plan.
  assert (Hn : length plan = ceilDiv (length text) 4076)
    by apply splitIntoChunks_length.
  assert (Hpos : 0 < length plan) by now apply plan_nonempty.
  split; [apply splitIntoChunks_concat |].
  split; [exact Hn |].
  split.
  { split.
    - apply Nat.lt_nge. intros H.
      apply (ceilDiv_least (length text) 4076 (length plan - 1)) in H;
        [rewrite <- Hn in H |]; lia.
    - apply (ceilDiv_least (length text) 4076 (length plan)); lia. }
  split.
  { intros bodies Hcat Hsize.
    rewrite Hn. apply ceilDiv_least; [lia |].
    rewrite <- Hcat at 1. now apply concat_length_bound. }
  split.
  { intros net to ms Hb Hacc.
    now apply (deliver_accepted net to text ms Hb Hlen). }
  vm_compute. repeat split.
Qed.

Lemma plan_round_trip_and_count_witness :
  concat (splitIntoChunks (xs (9 * 1000))) = xs (9 * 1000)
  /\ length (splitIntoChunks (xs (9 * 1000))) = 3.
Proof.
  destruct (plan_round_trip_and_count (xs (9 * 1000)))
    as (Hcat & _ & _ & _ & _ & Hcount & _).
  - apply Nat.ltb_lt. vm_compute. reflexivity.
  - split; [exact Hcat | exact Hcount].
Defined.

(** *** Order and pacing *)


Lemma pacedSends_app (to : jsstring) (ms total : nat)
    (l1 l2 : list jsstring) :
  forall i : nat,
    pacedSends to ms total i (l1 ++ l2) =
    pacedSends to ms total i l1 ++ pacedSends to ms total (i + length l1) l2.
Proof.
  induction l1 as [| c l1 IH]; intros i; cbn [app pacedSends length].
  - now rewrite Nat.add_0_r.
  - rewrite IH, <- app_assoc.
    replace (i + 1 + length l1) with (i + S (length l1)) by lia.
    reflexivity.
Qed.


(** The bodies requested in a run are those of the parts 1 .. m of the plan,
    in this order and once each, for some m, followed by at most the
    notice. *)
Lemma sentPayloads_in_order (net : network) (to text : jsstring)
    (ms : option nat) :
  forallb isWhiteSpace text = false ->
  MAX_LENGTH < length text ->
  exists (m : nat) (notices : list jsstring),
    m <= length (splitIntoChunks text)
    /\ sentPayloads (events (deliver net to (VString text) ms)) =
       map (payloadAt text) (seq 0 m) ++ notices
    /\ (notices = [] \/ notices = [NOTICE]).
Proof.
  intros Hb Hlen.
  destruct (deliver_run net to text ms Hb Hlen)
    as (m & Hm & Hok & [(-> & E & _) | (Hlt & Hrej & _)]).
  - exists (length (splitIntoChunks text)), []. split; [lia |].
    split; [| now left].
    rewrite E, app_nil_r.
    rewrite <- (firstn_all (splitIntoChunks text)) at 2.
    now apply sentPayloads_prefix.
  - exists (S m),
      (if negb (oversizedAt text m) && (m =? 0) then [NOTICE] else []).
    split; [lia |]. split.
    + now apply sentPayloads_refused.
    + destruct (negb (oversizedAt text m) && (m =? 0)); auto.
Qed.




(** *** The oversized part *)



(** **** A plan with an oversized part

    A prefix is longer than the 20 reserved characters once the plan has
    10^8 parts: part 10^7 of 10^8 is rendered with a 21-character prefix. *)

Section HugeText.

Variable text : jsstring.
Variable j : nat.

Hypothesis text_length : N.of_nat (length text) = 407600000000%N.
Hypothesis j_value : N.of_nat j = 9999999%N.





End HugeText.





(** * Further properties of the program *)

(** ** The sender *)

(** X1. A text of more than 4096 and at most 407,599,995,924 characters is
    delivered without [sendSplitMessage] ever throwing, whatever the network
    does: every refused part is caught inside the loop. *)
Theorem long_delivery_never_throws (net : network) (to text : jsstring)
    (ms : option nat) :
  forallb isWhiteSpace text = false ->
  MAX_LENGTH < length text ->
  (N.of_nat (length text) <= 407599995924)%N ->
  outcome (deliver net to (VString text) ms) = Returned tt.
Proof.
  intros Hb Hlen Hmax.
  destruct (deliver_run net to text ms Hb Hlen)
    as (m & _ & _ & [(_ & _ & Ho) | (Hlt & _ & _ & Ho)]).
  - exact Ho.
  - rewrite Ho, (plan_regular text m Hmax Hlt). reflexivity.
Qed.

Lemma long_delivery_never_throws_witness :
  outcome (deliver alwaysReject (lit "15550100") (VString (xs (9 * 1000))) None)
  = Returned tt.
Proof.
  apply long_delivery_never_throws.
  - vm_compute. reflexivity.
  - apply Nat.ltb_lt. vm_compute. reflexivity.
  - apply N.leb_le. vm_compute. reflexivity.
Defined.

(** X2. One call issues at most one request per part of the plan, plus one
    for the notice: never more than ceil(length / 4076) + 1 requests. *)
Theorem request_count_bounded (net : network) (to text : jsstring)
    (ms : option nat) :
  forallb isWhiteSpace text = false ->
  MAX_LENGTH < length text ->
  length (sentPayloads (events (deliver net to (VString text) ms)))
  <= (length text + 4075) / 4076 + 1.
Proof.
  intros Hb Hlen.
  destruct (sentPayloads_in_order net to text ms Hb Hlen)
    as (m & notices & Hm & -> & Hnot).
  rewrite length_app, length_map, length_seq.
  rewrite splitIntoChunks_length in Hm. unfold ceilDiv in Hm.
  rewrite CHUNK_SIZE_eq in Hm. change (4076 - 1) with 4075 in Hm.
  destruct Hnot as [-> | ->]; cbn [length]; lia.
Qed.

Lemma request_count_bounded_witness :
  length (sentPayloads
            (events (deliver alwaysReject (lit "15550100")
                       (VString (xs (9 * 1000))) None)))
  <= (length (xs (9 * 1000)) + 4075) / 4076 + 1.
Proof.
  apply request_count_bounded.
  - vm_compute. reflexivity.
  - apply Nat.ltb_lt. vm_compute. reflexivity.
Defined.

(** X3. No body of a plan is empty and none exceeds 4076 characters; every
    body but the last has exactly 4076, also when the length of the text is
    a multiple of 4076. *)
Theorem bodies_full_but_last (text : jsstring) (j : nat) :
  j < length (splitIntoChunks text) ->
  1 <= length (nth j (splitIntoChunks text) []) <= 4076
  /\ (j + 1 < length (splitIntoChunks text) ->
      length (nth j (splitIntoChunks text) []) = 4076).
Proof.
  intros Hj. rewrite splitIntoChunks_nth_length by exact Hj.
  rewrite splitIntoChunks_length in *. rewrite CHUNK_SIZE_eq in *.
  assert (H1 : j * 4076 < length text).
  { apply Nat.lt_nge. intros H.
    apply (ceilDiv_least (length text) 4076 j) in H; lia. }
  split; [lia |]. intros Hnext.
  assert (H2 : (j + 1) * 4076 < length text).
  { apply Nat.lt_nge. intros H.
    apply (ceilDiv_least (length text) 4076 (j + 1)) in H; lia. }
  lia.
Qed.

Lemma bodies_full_but_last_witness :
  1 <= length (nth 1 (splitIntoChunks (xs (2 * 4076))) []) <= 4076
  /\ (1 + 1 < length (splitIntoChunks (xs (2 * 4076))) ->
      length (nth 1 (splitIntoChunks (xs (2 * 4076))) []) = 4076).
Proof.
  apply (bodies_full_but_last (xs (2 * 4076)) 1).
  apply Nat.ltb_lt. vm_compute. reflexivity.
Defined.

(** X4. The reservation of 20 characters suffices up to 407,599,995,924
    characters: no part of such a text is truncated, each goes out as its
    prefix ["(j/n) "] followed by its body unchanged, within 4096
    characters. *)
Theorem parts_unabridged (text : jsstring) (j : nat) :
  (N.of_nat (length text) <= 407599995924)%N ->
  j < length (splitIntoChunks text) ->
  payloadAt text j =
    lit "(" ++ decimal (j + 1) ++ lit "/"
    ++ decimal (length (splitIntoChunks text)) ++ lit ") "
    ++ nth j (splitIntoChunks text) []
  /\ length (payloadAt text j) <= 4096.
Proof.
  intros Hmax Hj.
  pose proof (plan_regular text j Hmax Hj) as Hreg.
  unfold payloadAt, partPayload. unfold oversizedAt in Hreg.
  rewrite Hreg. split; [reflexivity |].
  unfold oversized in Hreg. now apply Nat.ltb_ge in Hreg.
Qed.

Lemma parts_unabridged_witness :
  payloadAt (xs (9 * 1000)) 2 =
    lit "(" ++ decimal (2 + 1) ++ lit "/"
    ++ decimal (length (splitIntoChunks (xs (9 * 1000)))) ++ lit ") "
    ++ nth 2 (splitIntoChunks (xs (9 * 1000))) []
  /\ length (payloadAt (xs (9 * 1000)) 2) <= 4096.
Proof.
  apply parts_unabridged.
  - apply N.leb_le. vm_compute. reflexivity.
  - apply Nat.ltb_lt. vm_compute. reflexivity.
Defined.





(** ** Webhook verification *)

Lemma streq_eq (s t : jsstring) : streq s t = true <-> s = t.
Proof.
  revert t. induction s as [| c s IH]; intros [| d t]; cbn;
    try (split; [discriminate | congruence]); [tauto |].
  rewrite andb_true_iff, N.eqb_eq, IH. split.
  - intros [-> ->]. reflexivity.
  - intros [= -> ->]. auto.
Qed.

Lemma streq_refl (s : jsstring) : streq s s = true.
Proof. now apply streq_eq. Qed.

Lemma isStr_eq (v : option json) (s : jsstring) :
  isStr v s = true <-> v = Some (JStr s).
Proof.
  destruct v as [[| b | z t | t | l | f] |]; cbn;
    try (split; [discriminate | intros [=]]).
  rewrite streq_eq. split; [intros -> | intros [= ->]]; reflexivity.
Qed.

Lemma printable_spec (v : option json) :
  printable v = true <-> exists s, toString v = Returned s.
Proof.
  unfold printable. destruct (toString v) as [s |]; split; eauto;
    try discriminate. intros [s H]. discriminate H.
Qed.


(** Only objects and arrays fail to convert: such a value is truthy and is
    no string. *)
Lemma unprintable_truthy (v : option json) :
  printable v = false ->
  truthyJ v = true /\ forall s, isStr v s = false.
Proof.
  destruct v as [[| [|] | z t | t | l | f] |]; cbn;
    try discriminate; auto.
Qed.

Lemma grant_spec (VERIFY_TOKEN : option jsstring) (mode token : option json) :
  truthyJ mode && truthyJ token = true
  /\ isStr mode (lit "subscribe") && isEnv token VERIFY_TOKEN = true <->
  exists t : jsstring,
    VERIFY_TOKEN = Some t /\ t <> [] /\
    mode = Some (JStr (lit "subscribe")) /\ token = Some (JStr t).
Proof.
  split.
  - intros [Htruthy Hgrant].
    apply andb_true_iff in Htruthy. destruct Htruthy as [_ Ht].
    apply andb_true_iff in Hgrant. destruct Hgrant as [Hs He].
    apply isStr_eq in Hs.
    destruct token as [[| b | z t | t | l | f] |];
      try discriminate He; try discriminate Ht.
    destruct VERIFY_TOKEN as [u |]; [| discriminate He].
    cbn in He. apply streq_eq in He. subst u.
    exists t. repeat split; try assumption; try reflexivity.
    intros ->. discriminate Ht.
  - intros (t & -> & Ht & -> & ->). cbn [truthyJ isEnv].
    rewrite (proj2 (isStr_eq _ _) eq_refl), streq_refl.
    destruct (streq t []) eqn:E; [apply streq_eq in E; contradiction |].
    split; reflexivity.
Qed.

(** X6. The verification request is granted, with status 200 and the
    challenge echoed, exactly when [hub.mode] is the string ["subscribe"]
    and [hub.verify_token] is a string equal to a configured, non-empty
    token; it is answered 400 exactly when the mode or the token is missing
    or empty. Otherwise it is refused with 403, unless the mode or the
    token cannot be rendered as a string: then the log of the refusal
    throws and the handler answers nothing. With no token configured
    nothing is ever granted. *)
Theorem verification_characterised (VERIFY_TOKEN : option jsstring)
    (mode token challenge : option json) :
  (webhookGet VERIFY_TOKEN mode token challenge
     = Returned (send 200 challenge) <->
   exists t : jsstring,
     VERIFY_TOKEN = Some t /\ t <> [] /\
     mode = Some (JStr (lit "subscribe")) /\ token = Some (JStr t))
  /\ (webhookGet VERIFY_TOKEN mode token challenge
       = Returned (sendStatus 400) <->
      truthyJ mode = false \/ truthyJ token = false)
  /\ (webhookGet VERIFY_TOKEN mode token challenge = Thrown <->
      truthyJ mode = true /\ truthyJ token = true
      /\ (printable mode = false \/ printable token = false))
  /\ (webhookGet VERIFY_TOKEN mode token challenge
       = Returned (send 200 challenge)
      \/ webhookGet VERIFY_TOKEN mode token challenge
         = Returned (sendStatus 400)
      \/ webhookGet VERIFY_TOKEN mode token challenge
         = Returned (sendStatus 403)
      \/ webhookGet VERIFY_TOKEN mode token challenge = Thrown).
Proof.
  rewrite <- grant_spec. unfold webhookGet.
  destruct (truthyJ mode) eqn:Hm; [destruct (truthyJ token) eqn:Ht |];
    cbn [andb].
  - destruct (isStr mode (lit "subscribe") && isEnv token VERIFY_TOKEN) eqn:G.
    + split; [split; auto |].
      split; [split; [discriminate | intros [H | H]; discriminate H] |].
      split; [| auto].
      split; [discriminate |].
      intros (_ & _ & H). exfalso.
      apply andb_true_iff in G. destruct G as [G1 G2].
      destruct H as [H | H]; apply unprintable_truthy in H;
        destruct H as [_ H].
      * rewrite H in G1. discriminate G1.
      * destruct token as [[| b | z t | t | l | f] |];
          try discriminate G2; try discriminate Ht.
        specialize (H t). cbn in H. rewrite streq_refl in H. discriminate H.
    + split; [split; [| intros [_ H]; discriminate H] |].
      { destruct (toString mode), (toString token); discriminate. }
      split; [split; [| intros [H | H]; discriminate H] |].
      { destruct (toString mode), (toString token); discriminate. }
      unfold printable.
      destruct (toString mode) as [m |], (toString token) as [t |];
        cbn [andThen]; (split; [| auto 6]);
        (split; [| intros (_ & _ & [H | H]); try discriminate H; reflexivity]);
        try discriminate; auto.
  - split; [split; [discriminate | intros [H _]; discriminate H] |].
    split; [split; [auto | reflexivity] |].
    split; [| auto].
    split; [discriminate | intros (_ & H & _); discriminate H].
  - split; [split; [discriminate | intros [H _]; discriminate H] |].
    split; [split; [auto | reflexivity] |].
    split; [| auto].
    split; [discriminate | intros (H & _); discriminate H].
Qed.

(** X7. The earlier revision of the verification handler answers what the
    later one answers, and 403 where the later one throws. *)
Theorem verification_revisions_agree (VERIFY_TOKEN : option jsstring)
    (mode token challenge : option json) :
  match webhookGet VERIFY_TOKEN mode token challenge with
  | Returned reply =>
      Rev2.webhookGet VERIFY_TOKEN mode token challenge = reply
  | Thrown =>
      Rev2.webhookGet VERIFY_TOKEN mode token challenge = sendStatus 403
  end.
Proof.
  unfold webhookGet, Rev2.webhookGet.
  destruct (truthyJ mode && truthyJ token); [| reflexivity].
  destruct (isStr mode (lit "subscribe") && isEnv token VERIFY_TOKEN);
    [reflexivity |].
  destruct (toString mode), (toString token); reflexivity.
Qed.

(** ** The POST handler and the processing of a message *)


Lemma json_eq_JNull (v : json) : v = JNull \/ v <> JNull.
Proof. destruct v; auto; right; discriminate. Qed.

Lemma prop_truthy (v : option json) (key : string) :
  truthyJ v = true -> exists r, prop v key = Returned r.
Proof.
  destruct v as [[| b | z t | t | l | f] |]; cbn; try discriminate; eauto.
Qed.

Lemma index0_truthy (v : option json) :
  truthyJ v = true -> exists r, index0 v = Returned r.
Proof.
  destruct v as [[| b | z t | t | l | f] |]; cbn; try discriminate; eauto.
Qed.

Ltac accepted_step H :=
  match type of H with
  | andThen ?c _ = Returned true =>
      let E := fresh "E" in
      destruct c as [? |] eqn:E; cbn [andThen] in H; [| discriminate H]
  | (if negb ?b then _ else _) = Returned true =>
      let T := fresh "T" in
      destruct b eqn:T; cbn [negb] in H; [| discriminate H]
  end.

(** What the test of the POST handler establishes for lines 84-85. *)
Lemma isMessageEvent_messageOf (body : option json) :
  isMessageEvent body = Returned true ->
  exists (messagePayload : json) (message : option json),
    body = Some messagePayload
    /\ messageOf messagePayload = Returned message
    /\ truthyJ message = true.
Proof.
  intros H. unfold isMessageEvent in H.
  destruct body as [messagePayload |]; [| discriminate H].
  repeat accepted_step H.
  injection H as H.
  exists messagePayload. unfold messageOf.
  repeat match goal with
         | E : ?c = Returned _ |- context [andThen ?c _] =>
             rewrite E; cbn [andThen]
         end.
  eauto.
Qed.

Lemma bind_lift {A B} (c : completion A) (f : A -> async B) (k : nat) :
  bind (lift c) f k =
  match c with
  | Returned a => f a k
  | Thrown => ([], k, Thrown)
  end.
Proof.
  unfold bind, lift. destruct c as [a |]; [| reflexivity].
  destruct (f a k) as [[t k'] r]. reflexivity.
Qed.

Lemma bind_ret {A B} (a : A) (f : A -> async B) (k : nat) :
  bind (ret a) f k = f a k.
Proof.
  unfold bind, ret. destruct (f a k) as [[t k'] r]. reflexivity.
Qed.



(** When the block returns, the handler is not run. *)
Lemma tryCatch_returned (m h : async unit) (k : nat) :
  outcome (m k) = Returned tt -> tryCatch m h k = m k.
Proof.
  unfold tryCatch, outcome. destruct (m k) as [[t1 k1] r]. cbn.
  intros ->. reflexivity.
Qed.

Lemma tryCatch_events (m h : async unit) (k : nat) :
  exists t, events (tryCatch m h k) = events (m k) ++ t.
Proof.
  unfold tryCatch, events. destruct (m k) as [[t1 k1] [[] |]]; cbn.
  - exists []. now rewrite app_nil_r.
  - destruct (h k1) as [[t2 k2] r2]. cbn. eauto.
Qed.

(** When the block throws at once, the statement is its handler. *)
Lemma tryCatch_thrown (m h : async unit) (k : nat) :
  m k = ([], k, Thrown) -> tryCatch m h k = h k.
Proof.
  unfold tryCatch. intros ->. destruct (h k) as [[t2 k2] r2]. reflexivity.
Qed.

(** A text that is not blank costs at least one request. *)
Lemma sendSplitMessage_sends (net : network) (to text : jsstring)
    (ms : option nat) (k : nat) :
  forallb isWhiteSpace text = false ->
  events (sendSplitMessage net to (VString text) ms k) <> [].
Proof.
  intros Hb.
  destruct (Nat.le_gt_cases (length text) MAX_LENGTH) as [Hlen | Hlen].
  - rewrite sendSplitMessage_short by assumption. discriminate.
  - rewrite sendSplitMessage_long by assumption.
    pose proof (plan_nonempty text Hlen) as Hn.
    destruct (splitIntoChunks text) as [| chunk rest]; [cbn in Hn; lia |].
    rewrite sendParts_cons.
    destruct (net k to _).
    + destruct (sendParts _ _ _ _ _ _ _) as [[t k'] r]. discriminate.
    + discriminate.
Qed.

Lemma prefixed_not_blank (c : codeUnit) (prefix text : jsstring) :
  isWhiteSpace c = false ->
  forallb isWhiteSpace ((c :: prefix) ++ text) = false.
Proof. intros H. cbn. now rewrite H. Qed.

(** The test of the POST handler reads [body.object] first, which throws
    on [undefined] and on [null]; on any other body this and the chain
    after it throw nothing. *)
Lemma isMessageEvent_throws (body : option json) :
  isMessageEvent body = Thrown <-> body = None \/ body = Some JNull.
Proof.
  split.
  - intros H.
    destruct body as [messagePayload |]; [| now left].
    destruct (json_eq_JNull messagePayload) as [-> | Hbody]; [now right |].
    exfalso. revert H.
    change (isMessageEvent (Some messagePayload) <> Thrown).
    unfold isMessageEvent.
    assert (Hobj : exists r, prop (Some messagePayload) "object" = Returned r)
      by (destruct messagePayload; cbn; eauto; contradiction).
    assert (Hent : exists r, prop (Some messagePayload) "entry" = Returned r)
      by (destruct messagePayload; cbn; eauto; contradiction).
    destruct Hobj as [o ->]. cbn [andThen].
    destruct (negb (isStr o _)); [discriminate |].
    destruct Hent as [e ->]. cbn [andThen].
    repeat match goal with
           | |- (if negb (truthyJ ?v) then _ else _) <> _ =>
               let T := fresh "T" in
               destruct (truthyJ v) eqn:T; cbn [negb]; [| discriminate]
           | T : truthyJ ?v = true |- andThen (prop ?v ?key) _ <> _ =>
               let r := fresh "r" in
               destruct (prop_truthy v key T) as [r ->]; cbn [andThen]
           | T : truthyJ ?v = true |- andThen (index0 ?v) _ <> _ =>
               let r := fresh "r" in
               destruct (index0_truthy v T) as [r ->]; cbn [andThen]
           end.
    discriminate.
  - intros [-> | ->]; reflexivity.
Qed.

Lemma tryCatch_nonempty (m h : async unit) (k : nat) :
  events (m k) <> [] \/ outcome (m k) = Thrown ->
  (forall k', events (h k') <> []) ->
  events (tryCatch m h k) <> [].
Proof.
  unfold tryCatch, events, outcome. intros Hm Hh.
  destruct (m k) as [[t1 k1] [[] |]]; cbn in *.
  - destruct Hm as [Hm | Hm]; [exact Hm | discriminate Hm].
  - specialize (Hh k1). destruct (h k1) as [[t2 k2] r2]. cbn in *.
    intros E. apply app_eq_nil in E. destruct E as [_ E]. contradiction.
Qed.

Lemma INTERNAL_ERROR_short :
  forallb isWhiteSpace INTERNAL_ERROR = false
  /\ length INTERNAL_ERROR <= MAX_LENGTH.
Proof. split; [| apply Nat.leb_le]; vm_compute; reflexivity. Qed.

(** The run of the catch block: one request for the notice, whose refusal
    is swallowed. *)
Lemma handler_run (net : network) (to : jsstring) (k : nat) :
  tryCatch (sendSplitMessage net to (VString INTERNAL_ERROR) None) (ret tt) k
  = ([Send to INTERNAL_ERROR (net k to INTERNAL_ERROR)], S k, Returned tt).
Proof.
  destruct INTERNAL_ERROR_short as [Hb Hlen].
  unfold tryCatch. rewrite sendSplitMessage_short by assumption.
  unfold sendWhatsAppMessage. destruct (net k to INTERNAL_ERROR); reflexivity.
Qed.

(** A short reply inside the try block: one request, and the notice when it
    is refused. *)
Lemma short_reply_run (net : network) (to text : jsstring) :
  forallb isWhiteSpace text = false ->
  length text <= MAX_LENGTH ->
  tryCatch (sendSplitMessage net to (VString text) None)
    (tryCatch (sendSplitMessage net to (VString INTERNAL_ERROR) None) (ret tt))
    0
  = if net 0 to text
    then ([Send to text true], 1, Returned tt)
    else ([Send to text false;
           Send to INTERNAL_ERROR (net 1 to INTERNAL_ERROR)], 2, Returned tt).
Proof.
  intros Hb Hlen. unfold tryCatch at 1.
  rewrite sendSplitMessage_short by assumption.
  unfold sendWhatsAppMessage. destruct (net 0 to text); [reflexivity |].
  rewrite handler_run. reflexivity.
Qed.

(** A long reply of fewer than 10^8 parts returns, whatever is refused. *)
Lemma long_reply_returns (net : network) (to text : jsstring) :
  forallb isWhiteSpace text = false ->
  MAX_LENGTH < length text ->
  (N.of_nat (length text) <= 407599995924)%N ->
  outcome (sendSplitMessage net to (VString text) None 0) = Returned tt.
Proof.
  intros Hb Hlen Hmax.
  destruct (deliver_run net to text None Hb Hlen)
    as (m & _ & _ & [(_ & _ & Ho) | (Hlt & _ & _ & Ho)]).
  - exact Ho.
  - unfold deliver in Ho. rewrite Ho, (plan_regular text m Hmax Hlt).
    reflexivity.
Qed.
Lemma blank_test (t : jsstring) :
  streq t [] || streq (trim t) [] = forallb isWhiteSpace t.
Proof.
  apply eq_true_iff_eq.
  rewrite orb_true_iff, !streq_nil, trim_nil. split.
  - intros [-> | H]; [reflexivity | exact H].
  - auto.
Qed.

Lemma tryCatch_ext (m h h' : async unit) (k : nat) :
  (forall k', h k' = h' k') -> tryCatch m h k = tryCatch m h' k.
Proof.
  intros H. unfold tryCatch. destruct (m k) as [[t1 k1] [[] |]];
    [reflexivity |]. rewrite H. reflexivity.
Qed.

(** The run of [processWhatsAppMessage] for a sender that can be rendered
    as a string: the log of the catch block goes through. *)
Ltac enter_try Hm Hf Hp :=
  unfold processWhatsAppMessage;
  rewrite bind_lift, Hm, bind_lift, Hf; cbv zeta;
  match goal with
  | |- context [tryCatch _ (bind (lift (toString ?from))
                              (fun _ => tryCatch ?reply (ret tt)))] =>
      rewrite (tryCatch_ext _
                 (bind (lift (toString from))
                    (fun _ => tryCatch reply (ret tt)))
                 (tryCatch reply (ret tt)))
        by (let k' := fresh "k" in
            intros k'; rewrite bind_lift;
            apply printable_spec in Hp; destruct Hp as [? ->];
            reflexivity)
  end.

Section Processing.

Variable net : network.
Variable svc : services.
Variable address : option json -> jsstring.


(** X8. The test of the POST handler throws exactly when [req.body] is
    [undefined] or [null]. Once it has accepted a body, the message is
    there: reading [entry[0].changes[0].value.messages[0]] and then its
    [from] and [type] throws no TypeError. *)
Theorem accepted_event_has_message (body : option json) :
  (isMessageEvent body = Thrown <-> body = None \/ body = Some JNull)
  /\ (isMessageEvent body = Returned true ->
      exists (messagePayload : json) (message from type : option json),
        body = Some messagePayload
        /\ messageOf messagePayload = Returned message
        /\ truthyJ message = true
        /\ prop message "from" = Returned from
        /\ prop message "type" = Returned type).
Proof.
  split.
  - apply isMessageEvent_throws.
  - intros H.
    destruct (isMessageEvent_messageOf body H)
      as (messagePayload & message & Hbody & Hm & Ht).
    destruct (prop_truthy message "from" Ht) as [from Hf].
    destruct (prop_truthy message "type" Ht) as [type Hty].
    exists messagePayload, message, from, type. auto.
Qed.




(** X10. For a message whose sender can be rendered, the bot stays silent
    exactly when the type is neither ["audio"] nor ["text"] and can be
    rendered for the log: both handled types cost at least one request, be
    it the reply or the internal-error notice, whatever the content, the
    services and the network; no text handed to [sendSplitMessage] is
    blank. *)
Theorem silent_iff_unhandled_type (body : json)
    (message from type : option json) (k : nat) :
  messageOf body = Returned message ->
  prop message "from" = Returned from ->
  printable from = true ->
  prop message "type" = Returned type ->
  (events (processWhatsAppMessage net svc address body k) = [] <->
   isStr type (lit "audio") = false /\ isStr type (lit "text") = false
   /\ printable type = true).
Proof.
  intros Hm Hf Hp Hty.
  destruct (proj1 (printable_spec from) Hp) as [f Hfrom].
  enter_try Hm Hf Hp.
  assert (Hhandler : forall k',
    events (tryCatch
              (sendSplitMessage net (address from) (VString INTERNAL_ERROR) None)
              (ret tt) k') <> []).
  { intros k'. rewrite handler_run. discriminate. }
  assert (Hsend : forall text k',
    forallb isWhiteSpace text = false ->
    events (sendSplitMessage net (address from) (VString text) None k') <> []
    \/ outcome (sendSplitMessage net (address from) (VString text) None k')
       = Thrown).
  { intros text k' Hb. left. now apply sendSplitMessage_sends. }
  destruct (isStr type (lit "audio")) eqn:Haudio.
  - split; [| intros (H & _); discriminate H].
    intros E. exfalso. revert E.
    apply tryCatch_nonempty; [| exact Hhandler].
    rewrite bind_lift, Hty, Haudio.
    rewrite bind_lift.
    destruct (prop message "audio") as [audio |]; [| now right].
    rewrite bind_lift.
    destruct (prop audio "id") as [audioId |]; [| now right].
    rewrite bind_lift.
    destruct (toString audioId) as [id |]; [| now right].
    rewrite bind_lift, Hfrom.
    rewrite bind_lift.
    destruct (getMedia svc _) as [data |]; [| now right].
    destruct (truthyJ data) eqn:Hd.
    + rewrite bind_lift.
      destruct (prop data "url") as [url |]; [| now right].
      cbn [negb orb].
      destruct (truthyJ url); cbn [negb].
      * rewrite bind_lift.
        destruct (getAudio svc url) as [audioBuffer |]; [| now right].
        rewrite bind_lift.
        destruct (prop audio "mime_type") as [mime |]; [| now right].
        rewrite bind_lift.
        destruct (generateContent svc _ _) as [[| text] |]; [| | now right].
        -- apply Hsend. vm_compute. reflexivity.
        -- rewrite bind_lift.
           destruct text as [transcribedText |]; [| now right].
           destruct (streq transcribedText [] || streq (trim transcribedText) []).
           ++ apply Hsend. vm_compute. reflexivity.
           ++ apply Hsend. rewrite lit_cons.
              apply prefixed_not_blank. vm_compute. reflexivity.
      * apply Hsend. vm_compute. reflexivity.
    + rewrite bind_ret. cbn [negb orb].
      apply Hsend. vm_compute. reflexivity.
  - destruct (isStr type (lit "text")) eqn:Htext.
    + split; [| intros (_ & H & _); discriminate H].
      intros E. exfalso. revert E.
      apply tryCatch_nonempty; [| exact Hhandler].
      rewrite bind_lift, Hty, Haudio, Htext.
      rewrite bind_lift, Hfrom.
      rewrite bind_lift.
      destruct (prop message "text") as [text |]; [| now right].
      rewrite bind_lift.
      destruct (prop text "body") as [b |]; [| now right].
      rewrite bind_lift.
      destruct (toString b) as [said |]; [| now right].
      apply Hsend. rewrite lit_cons.
      apply prefixed_not_blank. vm_compute. reflexivity.
    + unfold printable. destruct (toString type) as [t |] eqn:Ht.
      * split; [auto |]. intros _.
        unfold tryCatch.
        rewrite bind_lift, Hty, Haudio, Htext, bind_lift, Ht, bind_lift, Hfrom.
        reflexivity.
      * split; [| intros (_ & _ & H); discriminate H].
        intros E. exfalso. revert E.
        apply tryCatch_nonempty; [| exact Hhandler].
        right.
        rewrite bind_lift, Hty, Haudio, Htext, bind_lift, Ht. reflexivity.
Qed.

(** X11. A text message whose body is a string of at most 4086 characters
    (the empty string included) is answered by one request carrying
    ["You said: "] followed by the body, sent to the sender; only when that
    request is refused does the internal-error notice follow, and nothing
    is thrown. *)
Theorem short_text_message_echoed (body : json)
    (message from text : option json) (b : jsstring) :
  messageOf body = Returned message ->
  prop message "from" = Returned from ->
  printable from = true ->
  prop message "type" = Returned (Some (JStr (lit "text"))) ->
  prop message "text" = Returned text ->
  prop text "body" = Returned (Some (JStr b)) ->
  length b <= 4086 ->
  processWhatsAppMessage net svc address body 0 =
  if net 0 (address from) (lit "You said: " ++ b)
  then ([Send (address from) (lit "You said: " ++ b) true], 1, Returned tt)
  else ([Send (address from) (lit "You said: " ++ b) false;
         Send (address from) INTERNAL_ERROR
           (net 1 (address from) INTERNAL_ERROR)], 2, Returned tt).
Proof.
  intros Hm Hf Hp Hty Htext Hbody Hlen.
  destruct (proj1 (printable_spec from) Hp) as [f Hfrom].
  rewrite <- short_reply_run.
  - enter_try Hm Hf Hp.
    unfold tryCatch at 1 3.
    rewrite bind_lift, Hty.
    change (isStr (Some (JStr (lit "text"))) (lit "audio")) with false.
    change (isStr (Some (JStr (lit "text"))) (lit "text")) with true.
    cbv iota.
    rewrite bind_lift, Hfrom, bind_lift, Htext, bind_lift, Hbody, bind_lift.
    reflexivity.
  - rewrite lit_cons. apply prefixed_not_blank. vm_compute. reflexivity.
  - rewrite length_app. change (length (lit "You said: ")) with 10.
    unfold MAX_LENGTH. lia.
Qed.

(** X12. A text message whose echo exceeds 4096 characters (and stays below
    10^8 parts) is answered by the split delivery and by nothing else:
    refused parts are dealt with inside [sendSplitMessage], so that the
    internal-error notice is not sent. *)
Theorem long_text_message_split (body : json)
    (message from text : option json) (b : jsstring) :
  messageOf body = Returned message ->
  prop message "from" = Returned from ->
  printable from = true ->
  prop message "type" = Returned (Some (JStr (lit "text"))) ->
  prop message "text" = Returned text ->
  prop text "body" = Returned (Some (JStr b)) ->
  4086 < length b ->
  (N.of_nat (length b) <= 407599995914)%N ->
  processWhatsAppMessage net svc address body 0 =
  deliver net (address from) (VString (lit "You said: " ++ b)) None.
Proof.
  intros Hm Hf Hp Hty Htext Hbody Hlen Hmax.
  destruct (proj1 (printable_spec from) Hp) as [f Hfrom].
  assert (Hl : length (lit "You said: " ++ b) = 10 + length b)
    by (rewrite length_app; reflexivity).
  unfold deliver.
  rewrite <- (tryCatch_returned
                (sendSplitMessage net (address from)
                   (VString (lit "You said: " ++ b)) None)
                (tryCatch
                   (sendSplitMessage net (address from)
                      (VString INTERNAL_ERROR) None) (ret tt)) 0).
  - enter_try Hm Hf Hp.
    unfold tryCatch at 1 3.
    rewrite bind_lift, Hty.
    change (isStr (Some (JStr (lit "text"))) (lit "audio")) with false.
    change (isStr (Some (JStr (lit "text"))) (lit "text")) with true.
    cbv iota.
    rewrite bind_lift, Hfrom, bind_lift, Htext, bind_lift, Hbody, bind_lift.
    reflexivity.
  - apply long_reply_returns.
    + rewrite lit_cons. apply prefixed_not_blank. vm_compute. reflexivity.
    + rewrite Hl. unfold MAX_LENGTH. lia.
    + rewrite Hl. lia.
Qed.

End Processing.

Lemma accepted_event_has_message_witness :
  exists (messagePayload : json) (message from type : option json),
    Some (eventOf (textMessage (lit "15550100") (lit "hello")))
      = Some messagePayload
    /\ messageOf messagePayload = Returned message
    /\ truthyJ message = true
    /\ prop message "from" = Returned from
    /\ prop message "type" = Returned type.
Proof.
  apply (proj2 (accepted_event_has_message
                  (Some (eventOf (textMessage (lit "15550100")
                                    (lit "hello")))))).
  reflexivity.
Defined.

(** The three answers of the POST handler: no parsed body, a body that is
    no message event, and a message whose sender cannot be rendered. *)
Example post_handler_samples :
  webhookPost alwaysAccept unavailable byNumber None = Thrown
  /\ webhookPost alwaysAccept unavailable byNumber (Some (JObj []))
     = Returned (sendStatus 404, None)
  /\ webhookPost alwaysAccept unavailable byNumber
       (Some (eventOf unprintableSender))
     = Returned (sendStatus 200, Some ([], 0, Thrown))
  /\ webhookPost alwaysAccept unavailable byNumber
       (Some (eventOf (textMessage (lit "15550100") (lit "hello"))))
     = Returned (sendStatus 200,
                 Some ([Send (lit "15550100") (lit "You said: hello") true],
                       1, Returned tt)).
Proof. repeat split. Qed.

Lemma silent_iff_unhandled_type_witness :
  events (processWhatsAppMessage alwaysReject unavailable byNumber
            (eventOf (audioMessage (lit "15550100") (lit "m1"))) 0) = [] <->
  isStr (Some (JStr (lit "audio"))) (lit "audio") = false
  /\ isStr (Some (JStr (lit "audio"))) (lit "text") = false
  /\ printable (Some (JStr (lit "audio"))) = true.
Proof.
  apply (silent_iff_unhandled_type alwaysReject unavailable byNumber
           (eventOf (audioMessage (lit "15550100") (lit "m1")))
           (Some (audioMessage (lit "15550100") (lit "m1")))
           (Some (JStr (lit "15550100"))));
    reflexivity.
Defined.

Lemma short_text_message_echoed_witness :
  processWhatsAppMessage alwaysAccept unavailable byNumber
    (eventOf (textMessage (lit "15550100") [])) 0
  = if alwaysAccept 0 (byNumber (Some (JStr (lit "15550100"))))
         (lit "You said: " ++ [])
    then ([Send (byNumber (Some (JStr (lit "15550100"))))
             (lit "You said: " ++ []) true], 1, Returned tt)
    else ([Send (byNumber (Some (JStr (lit "15550100"))))
             (lit "You said: " ++ []) false;
           Send (byNumber (Some (JStr (lit "15550100")))) INTERNAL_ERROR
             (alwaysAccept 1 (byNumber (Some (JStr (lit "15550100"))))
                INTERNAL_ERROR)], 2, Returned tt).
Proof.
  apply (short_text_message_echoed alwaysAccept unavailable byNumber
           (eventOf (textMessage (lit "15550100") []))
           (Some (textMessage (lit "15550100") []))
           (Some (JStr (lit "15550100")))
           (Some (JObj [(lit "body", JStr [])])) []);
    try reflexivity.
  cbn. lia.
Defined.

Lemma long_text_message_split_witness :
  processWhatsAppMessage secondRefused unavailable byNumber
    (eventOf (textMessage (lit "15550100") (xs (9 * 1000)))) 0
  = deliver secondRefused (byNumber (Some (JStr (lit "15550100"))))
      (VString (lit "You said: " ++ xs (9 * 1000))) None.
Proof.
  apply (long_text_message_split secondRefused unavailable byNumber
           (eventOf (textMessage (lit "15550100") (xs (9 * 1000))))
           (Some (textMessage (lit "15550100") (xs (9 * 1000))))
           (Some (JStr (lit "15550100")))
           (Some (JObj [(lit "body", JStr (xs (9 * 1000)))]))
           (xs (9 * 1000)));
    try reflexivity.
  - apply Nat.ltb_lt. vm_compute. reflexivity.
  - apply N.leb_le. vm_compute. reflexivity.
Defined.

(** ** The audio path *)

(** The steps of the audio branch up to Gemini's answer. *)
Ltac through_audio Hty Hfrom H :=
  let audio := fresh "audio" in
  let data := fresh "data" in
  let url := fresh "url" in
  let mime := fresh "mime" in
  let id := fresh "id" in
  let audioBuffer := fresh "audioBuffer" in
  let audioId := fresh "audioId" in
  let Ha := fresh "Ha" in
  let Hid := fresh "Hid" in
  let Hidp := fresh "Hidp" in
  let Hmedia := fresh "Hmedia" in
  let Hd := fresh "Hd" in
  let Hurl := fresh "Hurl" in
  let Hu := fresh "Hu" in
  let Haudio := fresh "Haudio" in
  let Hmime := fresh "Hmime" in
  let Hgen := fresh "Hgen" in
  destruct H as (audio & data & url & mime & id & audioBuffer
                 & (Ha & audioId & Hid & Hidp) & Hmedia & Hd & Hurl & Hu
                 & Haudio & Hmime & Hgen);
  unfold mediaUrl, mimeTypeOf in *;
  rewrite bind_lift, Hty;
  change (isStr (Some (JStr (lit "audio"))) (lit "audio")) with true;
  cbv iota;
  rewrite bind_lift, Ha, bind_lift, Hid, bind_lift, Hidp, bind_lift, Hfrom;
  rewrite bind_lift, Hmedia, Hd;
  rewrite bind_lift, Hurl, Hu; cbn [negb orb];
  rewrite bind_lift, Haudio, bind_lift, Hmime; cbv zeta;
  rewrite bind_lift, Hgen.

Section Audio.

Variable net : network.
Variable svc : services.
Variable address : option json -> jsstring.

(** X13. When the audio path goes through with a transcription of at most
    4081 characters, the sender gets ["Transcription: "] followed by the
    text; when the transcription is empty or blank it is not relayed, and
    the sender gets the silent-audio message instead. In both cases this is
    one request, followed by the internal-error notice only if refused. *)
Theorem transcription_relayed_or_silent (body : json)
    (message from : option json) (t : jsstring) :
  messageOf body = Returned message ->
  prop message "from" = Returned from ->
  printable from = true ->
  prop message "type" = Returned (Some (JStr (lit "audio"))) ->
  transcribes svc message t ->
  length t <= 4081 ->
  let reply :=
    if forallb isWhiteSpace t then SILENT_AUDIO
    else lit "Transcription: " ++ t in
  processWhatsAppMessage net svc address body 0 =
  if net 0 (address from) reply
  then ([Send (address from) reply true], 1, Returned tt)
  else ([Send (address from) reply false;
         Send (address from) INTERNAL_ERROR
           (net 1 (address from) INTERNAL_ERROR)], 2, Returned tt).
Proof.
  intros Hm Hf Hp Hty Ht Hlen reply.
  destruct (proj1 (printable_spec from) Hp) as [f Hfrom].
  rewrite <- short_reply_run.
  - enter_try Hm Hf Hp.
    unfold tryCatch at 1 3.
    unfold transcribes in Ht. through_audio Hty Hfrom Ht.
    rewrite bind_lift, blank_test. subst reply.
    destruct (forallb isWhiteSpace t); reflexivity.
  - subst reply. destruct (forallb isWhiteSpace t).
    + vm_compute. reflexivity.
    + rewrite lit_cons. apply prefixed_not_blank. vm_compute. reflexivity.
  - subst reply. destruct (forallb isWhiteSpace t).
    + apply Nat.leb_le. vm_compute. reflexivity.
    + rewrite length_app. change (length (lit "Transcription: ")) with 15.
      unfold MAX_LENGTH. lia.
Qed.

(** X14. When a service of the audio path rejects (the media lookup, the
    download, the Gemini call) or [response.text()] throws, the sender gets
    the internal-error notice in one request and nothing else; the error
    goes no further, even if that request is refused too. *)
Theorem service_failure_notified (body : json) (message from : option json) :
  messageOf body = Returned message ->
  prop message "from" = Returned from ->
  printable from = true ->
  prop message "type" = Returned (Some (JStr (lit "audio"))) ->
  rejects svc message ->
  processWhatsAppMessage net svc address body 0 =
  ([Send (address from) INTERNAL_ERROR (net 0 (address from) INTERNAL_ERROR)],
   1, Returned tt).
Proof.
  intros Hm Hf Hp Hty Hrej.
  destruct (proj1 (printable_spec from) Hp) as [f Hfrom].
  enter_try Hm Hf Hp.
  rewrite tryCatch_thrown; [apply handler_run |].
  destruct Hrej as [Hrej | (audio & id & (Ha & audioId & Hid & Hidp) & Hrej)].
  - through_audio Hty Hfrom Hrej. rewrite bind_lift. reflexivity.
  - unfold mediaUrl, mimeTypeOf in *.
    rewrite bind_lift, Hty.
    change (isStr (Some (JStr (lit "audio"))) (lit "audio")) with true.
    cbv iota.
    rewrite bind_lift, Ha, bind_lift, Hid, bind_lift, Hidp, bind_lift, Hfrom.
    rewrite bind_lift.
    destruct Hrej as [-> | (data & url & -> & Hd & Hurl & Hu & Hrej)];
      [reflexivity |].
    rewrite Hd, bind_lift, Hurl, Hu. cbn [negb orb]. rewrite bind_lift.
    destruct Hrej as [-> | (audioBuffer & mime & -> & Hmime & Hgen)];
      [reflexivity |].
    rewrite bind_lift, Hmime. cbv zeta. rewrite bind_lift, Hgen.
    reflexivity.
Qed.

(** X15. A message of a handled type whose content is missing or cannot be
    rendered, a text message without [text] or an audio message without
    [audio], raises a TypeError inside the try block: the sender gets the
    internal-error notice, in one request, and nothing is thrown. *)
Theorem malformed_message_notified (body : json)
    (message from type : option json) :
  messageOf body = Returned message ->
  prop message "from" = Returned from ->
  printable from = true ->
  prop message "type" = Returned type ->
  (type = Some (JStr (lit "text"))
   /\ (text <~ prop message "text" ;; body <~ prop text "body" ;;
       toString body) = Thrown)
  \/ (type = Some (JStr (lit "audio"))
      /\ (audio <~ prop message "audio" ;; audioId <~ prop audio "id" ;;
          toString audioId) = Thrown) ->
  processWhatsAppMessage net svc address body 0 =
  ([Send (address from) INTERNAL_ERROR (net 0 (address from) INTERNAL_ERROR)],
   1, Returned tt).
Proof.
  intros Hm Hf Hp Hty H.
  destruct (proj1 (printable_spec from) Hp) as [f Hfrom].
  enter_try Hm Hf Hp.
  rewrite tryCatch_thrown; [apply handler_run |].
  rewrite bind_lift, Hty.
  destruct H as [[-> H] | [-> H]].
  - change (isStr (Some (JStr (lit "text"))) (lit "audio")) with false.
    change (isStr (Some (JStr (lit "text"))) (lit "text")) with true.
    cbv iota. rewrite bind_lift, Hfrom, bind_lift.
    destruct (prop message "text") as [text |]; [| reflexivity].
    cbn [andThen] in H. rewrite bind_lift.
    destruct (prop text "body") as [b |]; [| reflexivity].
    cbn [andThen] in H. rewrite bind_lift, H. reflexivity.
  - change (isStr (Some (JStr (lit "audio"))) (lit "audio")) with true.
    cbv iota. rewrite bind_lift.
    destruct (prop message "audio") as [audio |]; [| reflexivity].
    cbn [andThen] in H. rewrite bind_lift.
    destruct (prop audio "id") as [audioId |]; [| reflexivity].
    cbn [andThen] in H. rewrite bind_lift, H. reflexivity.
Qed.

(** X16. When the media lookup answers without data or without a [url],
    nothing is downloaded or transcribed: the sender is told that the audio
    details could not be retrieved, in one request, followed by the
    internal-error notice only if that request is refused. *)
Theorem missing_media_url_reported (body : json)
    (message from : option json) :
  messageOf body = Returned message ->
  prop message "from" = Returned from ->
  printable from = true ->
  prop message "type" = Returned (Some (JStr (lit "audio"))) ->
  mediaUrlMissing svc message ->
  processWhatsAppMessage net svc address body 0 =
  if net 0 (address from) NO_MEDIA_URL
  then ([Send (address from) NO_MEDIA_URL true], 1, Returned tt)
  else ([Send (address from) NO_MEDIA_URL false;
         Send (address from) INTERNAL_ERROR
           (net 1 (address from) INTERNAL_ERROR)], 2, Returned tt).
Proof.
  intros Hm Hf Hp Hty
    (audio & data & id & (Ha & audioId & Hid & Hidp) & Hmedia & Hmiss).
  destruct (proj1 (printable_spec from) Hp) as [f Hfrom].
  unfold mediaUrl in *.
  rewrite <- short_reply_run.
  - enter_try Hm Hf Hp.
    unfold tryCatch at 1 3.
    rewrite bind_lift, Hty.
    change (isStr (Some (JStr (lit "audio"))) (lit "audio")) with true.
    cbv iota.
    rewrite bind_lift, Ha, bind_lift, Hid, bind_lift, Hidp, bind_lift, Hfrom.
    rewrite bind_lift, Hmedia.
    destruct Hmiss as [Hd | (url & Hurl & Hu)].
    + rewrite Hd, bind_ret. reflexivity.
    + destruct (truthyJ data).
      * rewrite bind_lift, Hurl, Hu. reflexivity.
      * rewrite bind_ret. reflexivity.
  - vm_compute. reflexivity.
  - apply Nat.leb_le. vm_compute. reflexivity.
Qed.

(** X17. When Gemini's result has no [response.text] function, the sender
    is told that the transcription service answered unexpectedly, in one
    request, followed by the internal-error notice only if that request is
    refused. *)
Theorem unexpected_response_reported (body : json)
    (message from : option json) :
  messageOf body = Returned message ->
  prop message "from" = Returned from ->
  printable from = true ->
  prop message "type" = Returned (Some (JStr (lit "audio"))) ->
  responseUnexpected svc message ->
  processWhatsAppMessage net svc address body 0 =
  if net 0 (address from) UNEXPECTED_RESPONSE
  then ([Send (address from) UNEXPECTED_RESPONSE true], 1, Returned tt)
  else ([Send (address from) UNEXPECTED_RESPONSE false;
         Send (address from) INTERNAL_ERROR
           (net 1 (address from) INTERNAL_ERROR)], 2, Returned tt).
Proof.
  intros Hm Hf Hp Hty Hun.
  destruct (proj1 (printable_spec from) Hp) as [f Hfrom].
  rewrite <- short_reply_run.
  - enter_try Hm Hf Hp.
    unfold tryCatch at 1 3.
    unfold responseUnexpected in Hun. through_audio Hty Hfrom Hun.
    reflexivity.
  - vm_compute. reflexivity.
  - apply Nat.leb_le. vm_compute. reflexivity.
Qed.

End Audio.

Lemma transcribing_answers (from id t : jsstring) :
  answers (transcribing t) (Some (audioMessage from id))
    (Response (Returned t)).
Proof.
  exists (Some (JObj [(lit "id", JStr id)])),
    (Some (JObj [(lit "url", JStr (lit "https://lookaside.example/m1"))])),
    (Some (JStr (lit "https://lookaside.example/m1"))), None, id,
    [79; 103; 103; 83]%N.
  repeat split. exists (Some (JStr id)). split; reflexivity.
Qed.

Lemma transcription_relayed_or_silent_witness :
  processWhatsAppMessage alwaysAccept (transcribing (lit "  ")) byNumber
    (eventOf (audioMessage (lit "15550100") (lit "m1"))) 0
  = if alwaysAccept 0 (byNumber (Some (JStr (lit "15550100"))))
         (if forallb isWhiteSpace (lit "  ") then SILENT_AUDIO
          else lit "Transcription: " ++ lit "  ")
    then ([Send (byNumber (Some (JStr (lit "15550100"))))
             (if forallb isWhiteSpace (lit "  ") then SILENT_AUDIO
              else lit "Transcription: " ++ lit "  ") true], 1, Returned tt)
    else ([Send (byNumber (Some (JStr (lit "15550100"))))
             (if forallb isWhiteSpace (lit "  ") then SILENT_AUDIO
              else lit "Transcription: " ++ lit "  ") false;
           Send (byNumber (Some (JStr (lit "15550100")))) INTERNAL_ERROR
             (alwaysAccept 1 (byNumber (Some (JStr (lit "15550100"))))
                INTERNAL_ERROR)], 2, Returned tt).
Proof.
  apply (transcription_relayed_or_silent alwaysAccept
           (transcribing (lit "  ")) byNumber
           (eventOf (audioMessage (lit "15550100") (lit "m1")))
           (Some (audioMessage (lit "15550100") (lit "m1")))
           (Some (JStr (lit "15550100"))) (lit "  "));
    try reflexivity.
  - apply transcribing_answers.
  - cbn. lia.
Defined.

Lemma service_failure_notified_witness :
  processWhatsAppMessage alwaysReject unavailable byNumber
    (eventOf (audioMessage (lit "15550100") (lit "m1"))) 0
  = ([Send (byNumber (Some (JStr (lit "15550100")))) INTERNAL_ERROR
        (alwaysReject 0 (byNumber (Some (JStr (lit "15550100"))))
           INTERNAL_ERROR)], 1, Returned tt).
Proof.
  apply (service_failure_notified alwaysReject unavailable byNumber
           (eventOf (audioMessage (lit "15550100") (lit "m1")))
           (Some (audioMessage (lit "15550100") (lit "m1")))
           (Some (JStr (lit "15550100"))));
    try reflexivity.
  right. exists (Some (JObj [(lit "id", JStr (lit "m1"))])), (lit "m1").
  split; [| left; reflexivity].
  split; [reflexivity |]. exists (Some (JStr (lit "m1"))).
  split; reflexivity.
Defined.

Lemma malformed_message_notified_witness :
  processWhatsAppMessage alwaysAccept unavailable byNumber
    (eventOf (JObj [(lit "from", JStr (lit "15550100"));
                    (lit "type", JStr (lit "text"))])) 0
  = ([Send (byNumber (Some (JStr (lit "15550100")))) INTERNAL_ERROR
        (alwaysAccept 0 (byNumber (Some (JStr (lit "15550100"))))
           INTERNAL_ERROR)], 1, Returned tt).
Proof.
  apply (malformed_message_notified alwaysAccept unavailable byNumber
           (eventOf (JObj [(lit "from", JStr (lit "15550100"));
                           (lit "type", JStr (lit "text"))]))
           (Some (JObj [(lit "from", JStr (lit "15550100"));
                        (lit "type", JStr (lit "text"))]))
           (Some (JStr (lit "15550100")))
           (Some (JStr (lit "text"))));
    try reflexivity.
  left. split; reflexivity.
Defined.

Lemma missing_media_url_reported_witness :
  processWhatsAppMessage alwaysReject withoutUrl byNumber
    (eventOf (audioMessage (lit "15550100") (lit "m1"))) 0
  = if alwaysReject 0 (byNumber (Some (JStr (lit "15550100")))) NO_MEDIA_URL
    then ([Send (byNumber (Some (JStr (lit "15550100")))) NO_MEDIA_URL true],
          1, Returned tt)
    else ([Send (byNumber (Some (JStr (lit "15550100")))) NO_MEDIA_URL false;
           Send (byNumber (Some (JStr (lit "15550100")))) INTERNAL_ERROR
             (alwaysReject 1 (byNumber (Some (JStr (lit "15550100"))))
                INTERNAL_ERROR)], 2, Returned tt).
Proof.
  apply (missing_media_url_reported alwaysReject withoutUrl byNumber
           (eventOf (audioMessage (lit "15550100") (lit "m1")))
           (Some (audioMessage (lit "15550100") (lit "m1")))
           (Some (JStr (lit "15550100"))));
    try reflexivity.
  exists (Some (JObj [(lit "id", JStr (lit "m1"))])), (Some (JObj [])),
    (lit "m1").
  split; [| split; [reflexivity |]].
  - split; [reflexivity |]. exists (Some (JStr (lit "m1"))).
    split; reflexivity.
  - right. exists None. split; reflexivity.
Defined.

Lemma misshapen_answers (from id : jsstring) :
  answers misshapen (Some (audioMessage from id)) Unexpected.
Proof.
  exists (Some (JObj [(lit "id", JStr id)])),
    (Some (JObj [(lit "url", JStr (lit "https://lookaside.example/m1"))])),
    (Some (JStr (lit "https://lookaside.example/m1"))), None, id,
    [79; 103; 103; 83]%N.
  repeat split. exists (Some (JStr id)). split; reflexivity.
Qed.

Lemma unexpected_response_reported_witness :
  processWhatsAppMessage alwaysAccept misshapen byNumber
    (eventOf (audioMessage (lit "15550100") (lit "m1"))) 0
  = if alwaysAccept 0 (byNumber (Some (JStr (lit "15550100"))))
         UNEXPECTED_RESPONSE
    then ([Send (byNumber (Some (JStr (lit "15550100")))) UNEXPECTED_RESPONSE
             true], 1, Returned tt)
    else ([Send (byNumber (Some (JStr (lit "15550100")))) UNEXPECTED_RESPONSE
             false;
           Send (byNumber (Some (JStr (lit "15550100")))) INTERNAL_ERROR
             (alwaysAccept 1 (byNumber (Some (JStr (lit "15550100"))))
                INTERNAL_ERROR)], 2, Returned tt).
Proof.
  apply (unexpected_response_reported alwaysAccept misshapen byNumber
           (eventOf (audioMessage (lit "15550100") (lit "m1")))
           (Some (audioMessage (lit "15550100") (lit "m1")))
           (Some (JStr (lit "15550100"))));
    try reflexivity.
  apply misshapen_answers.
Defined.

Section EarlierSender.

Variable net : network.
Variable to : jsstring.
Variable ms total : nat.

(** The loop of the earlier revision runs to its end: its catch block is
    never entered, since its [sendWhatsAppMessage] does not throw. *)
Lemma Rev2_sendParts_run (rest : list jsstring) :
  forall i k : nat,
    sentPayloads (events (Rev2.sendParts net to ms total i rest k)) =
      map (fun j => messagePart total (i + j) (nth j rest []))
          (seq 0 (length rest))
    /\ pauses (events (Rev2.sendParts net to ms total i rest k)) =
       repeat ms (Nat.min (length rest) (total - 1 - i))
    /\ outcome (Rev2.sendParts net to ms total i rest k) = Returned tt.
Proof.
  induction rest as [| chunk rest IH]; intros i k.
  - repeat split.
  - specialize (IH (i + 1) (S k)).
    cbn [Rev2.sendParts].
    unfold bind, tryCatch, Rev2.sendWhatsAppMessage, delay, ret. cbv zeta.
    destruct (Nat.ltb_spec i (total - 1)) as [Hi | Hi];
      destruct (Rev2.sendParts net to ms total (i + 1) rest (S k))
        as [[t k'] r];
      unfold events, outcome in *; cbn [fst snd app sentPayloads pauses] in *;
      destruct IH as (IH1 & IH2 & IH3);
      (split; [| split; [| exact IH3]]).
    + cbn [length seq map nth]. rewrite Nat.add_0_r. f_equal.
      rewrite IH1, <- seq_shift, map_map.
      apply map_ext. intros j. f_equal. lia.
    + rewrite IH2. cbn [length].
      replace (Nat.min (S (length rest)) (total - 1 - i))
        with (S (Nat.min (length rest) (total - 1 - (i + 1)))) by lia.
      reflexivity.
    + cbn [length seq map nth]. rewrite Nat.add_0_r. f_equal.
      rewrite IH1, <- seq_shift, map_map.
      apply map_ext. intros j. f_equal. lia.
    + rewrite IH2. cbn [length].
      replace (Nat.min (S (length rest)) (total - 1 - i)) with 0 by lia.
      replace (Nat.min (length rest) (total - 1 - (i + 1))) with 0 by lia.
      reflexivity.
Qed.

End EarlierSender.

(** X18. In the earlier revision a failed request stops nothing: since its
    [sendWhatsAppMessage] swallows the error, a text of more than 4096
    characters has every part requested, in order and as rendered, with
    n - 1 pauses, whatever the network answers, and the call returns
    normally; a shorter text goes out in one request as it is, blank or
    empty included. *)
Theorem Rev2_attempts_every_part (net : network) (to text : jsstring)
    (ms : option nat) :
  (length text <= MAX_LENGTH ->
   Rev2.sendSplitMessage net to text ms 0
   = ([Send to text (net 0 to text)], 1, Returned tt))
  /\ (MAX_LENGTH < length text ->
      sentPayloads (events (Rev2.sendSplitMessage net to text ms 0)) =
        map (fun j => messagePart (length (splitIntoChunks text)) j
                        (nth j (splitIntoChunks text) []))
            (seq 0 (length (splitIntoChunks text)))
      /\ pauses (events (Rev2.sendSplitMessage net to text ms 0)) =
         repeat (orDefault 1500 ms) (length (splitIntoChunks text) - 1)
      /\ outcome (Rev2.sendSplitMessage net to text ms 0) = Returned tt).
Proof.
  unfold Rev2.sendSplitMessage. split; intros Hlen.
  - apply Nat.leb_le in Hlen. rewrite Hlen. reflexivity.
  - apply Nat.leb_gt in Hlen. rewrite Hlen. cbv zeta.
    destruct (Rev2_sendParts_run net to (orDefault 1500 ms)
                (length (splitIntoChunks text)) (splitIntoChunks text) 0 0)
      as (H1 & H2 & H3).
    split; [exact H1 |]. split; [| exact H3].
    rewrite H2. f_equal. lia.
Qed.

Lemma Rev2_attempts_every_part_witness :
  sentPayloads (events (Rev2.sendSplitMessage alwaysReject (lit "15550100")
                          (xs (9 * 1000)) None 0)) =
    map (fun j => messagePart (length (splitIntoChunks (xs (9 * 1000)))) j
                    (nth j (splitIntoChunks (xs (9 * 1000))) []))
        (seq 0 (length (splitIntoChunks (xs (9 * 1000)))))
  /\ pauses (events (Rev2.sendSplitMessage alwaysReject (lit "15550100")
                       (xs (9 * 1000)) None 0)) =
     repeat (orDefault 1500 None) (length (splitIntoChunks (xs (9 * 1000))) - 1)
  /\ outcome (Rev2.sendSplitMessage alwaysReject (lit "15550100")
                (xs (9 * 1000)) None 0) = Returned tt.
Proof.
  apply (proj2 (Rev2_attempts_every_part alwaysReject (lit "15550100")
                  (xs (9 * 1000)) None)).
  apply Nat.ltb_lt. vm_compute. reflexivity.
Defined.
